(** * pesa-pay: the payment API of [app.py]

    A shallow embedding of the Flask application in [src/app.py]: the card
    and request validators, the simulated authorization, the SQLAlchemy
    session the handlers talk to, and the four endpoints.

    Conventions of the embedding.
    - A Python [str] is a [string]; its characters are the code points
      below 256. In that range the decimal digits of [\d] are exactly
      ['0'..'9'].
    - A JSON number is a rational ([Q]); the rounding of the [Float]
      column and the non-finite floats are not modelled.
    - The request body is modelled after decoding, with every key the
      handler subscripts present and of the JSON type the handler expects.
    - What lies outside the application (environment variables, the clock,
      the uuid generator, whether the driver takes the values of an
      INSERT) is an explicit [Env] record.
    - The store is the one [app.py] configures: SQLite under SQLAlchemy.
      Its [Enum] column writes any text and raises on reading back a text
      that names no member, and a commit expires the objects of the
      session, so that they are read from the table again. *)

From Stdlib Require Import List String Ascii ZArith NArith QArith Bool Lia.
From Stdlib Require Import DecimalString.
Import ListNotations.

Close Scope Q_scope.
Local Open Scope string_scope.

(** ** Python primitives used by the application *)

Module Py.

(** *** Characters *)

Definition is_decimal (c : ascii) : bool :=
  let n := nat_of_ascii c in (48 <=? n)%nat && (n <=? 57)%nat.

Definition in_range (lo hi c : ascii) : bool :=
  (nat_of_ascii lo <=? nat_of_ascii c)%nat
  && (nat_of_ascii c <=? nat_of_ascii hi)%nat.

Definition newline : ascii := ascii_of_nat 10.

(** The white space [int] skips around a literal: below 128 that of C
    ([\t\n\v\f\r] and the space), above it the Unicode white space,
    which below 256 is U+0085 and U+00A0. *)
Definition is_space (c : ascii) : bool :=
  let n := nat_of_ascii c in
  ((9 <=? n)%nat && (n <=? 13)%nat)
  || (n =? 32)%nat || (n =? 133)%nat || (n =? 160)%nat.

Definition digit_value (c : ascii) : Z := Z.of_nat (nat_of_ascii c) - 48.

(** *** [re]: the fragment of the pattern language the validators use *)

Inductive regex : Type :=
| Bol                          (* ^ *)
| Eol                          (* $ *)
| Digit                        (* \d *)
| Lit (c : ascii)              (* a literal character *)
| Range (lo hi : ascii)        (* [lo-hi] *)
| Seq (r1 r2 : regex)          (* r1r2 *)
| Alt (r1 r2 : regex)          (* r1|r2 *)
| Rep (m n : nat) (r : regex). (* r{m,n}, greedy *)

(** A matcher is run at a position on the rest of the subject and hands
    the position and rest it stops at to its continuation; backtracking
    is the [||]. *)
Definition matcher := nat -> string -> (nat -> string -> bool) -> bool.

Fixpoint rep_opt (step : matcher) (j : nat) : matcher :=
  fun pos s k =>
    match j with
    | O => k pos s
    | S j' => step pos s (fun p t => rep_opt step j' p t k) || k pos s
    end.

Fixpoint rep_req (step : matcher) (i j : nat) : matcher :=
  fun pos s k =>
    match i with
    | O => rep_opt step j pos s k
    | S i' => step pos s (fun p t => rep_req step i' j p t k)
    end.

Definition one_char (p : ascii -> bool) : matcher :=
  fun pos s k =>
    match s with
    | String c s' => p c && k (S pos) s'
    | EmptyString => false
    end.

(** [$] without MULTILINE: the end of the subject, or just before a
    newline that is the last character of the subject. *)
Definition at_end (s : string) : bool :=
  match s with
  | EmptyString => true
  | String c EmptyString => Ascii.eqb c newline
  | _ => false
  end.

Fixpoint rmatch (r : regex) : matcher :=
  match r with
  | Bol => fun pos s k => (pos =? 0)%nat && k pos s
  | Eol => fun pos s k => at_end s && k pos s
  | Digit => one_char is_decimal
  | Lit c => one_char (Ascii.eqb c)
  | Range lo hi => one_char (in_range lo hi)
  | Seq r1 r2 => fun pos s k => rmatch r1 pos s (fun p t => rmatch r2 p t k)
  | Alt r1 r2 => fun pos s k => rmatch r1 pos s k || rmatch r2 pos s k
  | Rep m n r' => rep_req (rmatch r') m (n - m)
  end.

(** [re.match(pattern, s)] as a truth value: the pattern matches at the
    start of [s]; the match need not reach the end of [s]. *)
Definition re_match (r : regex) (s : string) : bool :=
  rmatch r 0 s (fun _ _ => true).

(** *** [int(str)] in base 10 *)

Fixpoint lstrip (s : string) : string :=
  match s with
  | String c s' => if is_space c then lstrip s' else s
  | EmptyString => EmptyString
  end.

Fixpoint rstrip (s : string) : string :=
  match s with
  | String c s' =>
      match rstrip s' with
      | EmptyString => if is_space c then EmptyString else String c EmptyString
      | t => String c t
      end
  | EmptyString => EmptyString
  end.

Definition strip (s : string) : string := rstrip (lstrip s).

Definition underscore : ascii := ascii_of_nat 95.
Definition plus_sign : ascii := ascii_of_nat 43.
Definition minus_sign : ascii := ascii_of_nat 45.

(** Digits with single underscores between them; [after_digit] says
    whether the previous character was a digit. *)
Fixpoint digits (acc : Z) (after_digit : bool) (s : string) : option Z :=
  match s with
  | EmptyString => if after_digit then Some acc else None
  | String c s' =>
      if is_decimal c then digits (acc * 10 + digit_value c) true s'
      else if Ascii.eqb c underscore
           then (if after_digit then digits acc false s' else None)
           else None
  end.

(** The value of the literal in [s]: white space around it, an optional
    sign, digits and single underscores.  [None]: [s] holds no literal. *)
Definition literal (s : string) : option Z :=
  match strip s with
  | String c t =>
      if Ascii.eqb c minus_sign then option_map Z.opp (digits 0 false t)
      else if Ascii.eqb c plus_sign then digits 0 false t
      else digits 0 false (String c t)
  | EmptyString => None
  end.

(** sys.int_info.default_max_str_digits: a literal of more digits is
    refused, the leading zeros counted and the underscores not. *)
Definition max_str_digits : N := 4300.

Fixpoint count_decimal (s : string) : N :=
  match s with
  | EmptyString => 0
  | String c s' => ((if is_decimal c then 1 else 0) + count_decimal s')%N
  end.

(** [int(s)]: [None] stands for the [ValueError] it raises. *)
Definition int (s : string) : option Z :=
  match literal s with
  | Some v => if (max_str_digits <? count_decimal s)%N then None else Some v
  | None => None
  end.

(** *** [repr] of a [str] *)

Definition quote1 : ascii := ascii_of_nat 39.
Definition quote2 : ascii := ascii_of_nat 34.
Definition backslash : ascii := ascii_of_nat 92.

Fixpoint contains (c : ascii) (s : string) : bool :=
  match s with
  | EmptyString => false
  | String c' s' => Ascii.eqb c' c || contains c s'
  end.

(** [str.isprintable] on one code point below 256. *)
Definition printable (c : ascii) : bool :=
  let n := nat_of_ascii c in
  ((32 <=? n)%nat && (n <=? 126)%nat)
  || ((161 <=? n)%nat && negb (n =? 173)%nat).

Definition hex_digit (n : nat) : ascii :=
  ascii_of_nat (if (n <? 10)%nat then 48 + n else 87 + n).

Definition escape (quote c : ascii) : string :=
  let n := nat_of_ascii c in
  if Ascii.eqb c quote || Ascii.eqb c backslash
  then String backslash (String c EmptyString)
  else if (n =? 9)%nat then String backslash "t"
  else if (n =? 10)%nat then String backslash "n"
  else if (n =? 13)%nat then String backslash "r"
  else if printable c then String c EmptyString
  else String backslash
         (String "x" (String (hex_digit (n / 16))
                             (String (hex_digit (n mod 16)) EmptyString))).

Fixpoint escape_all (quote : ascii) (s : string) : string :=
  match s with
  | EmptyString => EmptyString
  | String c s' => escape quote c ++ escape_all quote s'
  end.

(** Single quotes, unless [s] holds one and no double quote. *)
Definition repr (s : string) : string :=
  let quote := if contains quote1 s && negb (contains quote2 s)
               then quote2 else quote1 in
  String quote (escape_all quote s ++ String quote EmptyString).

(** *** Slices and prefixes *)

(** [s[-n:]] *)
Definition last_chars (n : nat) (s : string) : string :=
  substring (String.length s - n) n s.

(** [s.startswith(p)] *)
Definition startswith (s p : string) : bool := String.prefix p s.

End Py.

(** ** The application *)

Module App.
Import Py.

Local Open Scope Z_scope.

(** *** Enums (app.py 23-32) *)

Inductive Currency := USD | UGX | KES.

Inductive PaymentStatus := PENDING | SUCCEEDED | FAILED | REFUNDED.

Definition Currency_name (c : Currency) : string :=
  match c with USD => "USD" | UGX => "UGX" | KES => "KES" end.

(** The names the [Enum(Currency)] column knows. *)
Definition Currency_member (name : string) : bool :=
  existsb (String.eqb name) (map Currency_name [USD; UGX; KES]).

Definition PaymentStatus_value (s : PaymentStatus) : string :=
  match s with
  | PENDING => "pending"
  | SUCCEEDED => "succeeded"
  | FAILED => "failed"
  | REFUNDED => "refunded"
  end.

Definition PaymentStatus_eqb (a b : PaymentStatus) : bool :=
  match a, b with
  | PENDING, PENDING | SUCCEEDED, SUCCEEDED
  | FAILED, FAILED | REFUNDED, REFUNDED => true
  | _, _ => false
  end.

(** *** JSON values carried through untouched (the [metadata] column) *)

Unset Elimination Schemes.
Inductive json :=
| JBool (b : bool)
| JNum (q : Q)
| JStr (s : string)
| JArr (l : list json)
| JObj (m : list (string * json)).
Set Elimination Schemes.

(** *** The model class (app.py 35-43)

    [currency] holds the text the request carried: the handler assigns
    it unconverted and the [Enum(Currency)] column writes a text it does
    not know as it is; it is on reading the row back that a text which
    names no member of [Currency] raises ([load]). *)

Module Payment.
Record t := mk {
  id : string;
  amount : Q;
  currency : string;
  status : PaymentStatus;
  created_at : Z;
  description : option string;
  payment_metadata : option json;
  last_four : string
}.

(** [self.status = s] *)
Definition set_status (s : PaymentStatus) (self : t) : t :=
  mk (id self) (amount self) (currency self) s (created_at self)
     (description self) (payment_metadata self) (last_four self).
End Payment.

(** *** The validated classes (app.py 50-81) *)

Module CardDetails.
Record t := mk {
  card_number : string;
  expiry_month : string;
  expiry_year : string;
  cvv : string;
  cardholder_name : string
}.
End CardDetails.

Module PaymentRequest.
Record t := mk {
  amount : Q;
  currency : string;
  description : option string;
  metadata : option json;
  card_details : CardDetails.t
}.
End PaymentRequest.

(** *** What the application reads from outside itself *)

Record Env := mkEnv {
  API_KEY : option string;      (* the environment variable, if set *)
  now_year : Z;                 (* datetime.now().year *)
  uuid4 : string;               (* str(uuid4()), the next row's id *)
  utcnow : Z;                   (* datetime.utcnow, the next row's created_at *)
  engine_accepts : Payment.t -> bool
    (* whether the driver takes the values of this row in an INSERT *)
}.

(** *** Exceptions *)

Inductive exn :=
| ValueError (msg : string)
| Exception (name : string).    (* any exception that is not a ValueError *)

Inductive Result (A : Type) :=
| Ok (a : A)
| Raise (e : exn).
Arguments Ok {A} a.
Arguments Raise {A} e.

(** *** Rows read from the table

    The result processor of the [Enum(Currency)] column looks the stored
    text up among the names of [Currency] and raises LookupError on any
    other text. *)

Definition loads (row : Payment.t) : bool :=
  Currency_member (Payment.currency row).

Definition load (row : Payment.t) : Result Payment.t :=
  if loads row then Ok row else Raise (Exception "LookupError").

Fixpoint load_all (rows : list Payment.t) : Result (list Payment.t) :=
  match rows with
  | [] => Ok []
  | row :: rest =>
      match load row with
      | Ok p =>
          match load_all rest with
          | Ok ps => Ok (p :: ps)
          | Raise e => Raise e
          end
      | Raise e => Raise e
      end
  end.

(** *** The database session

    [table] is the committed table in rowid (insertion) order.  The
    session holds the unit of work: the rows added and the status
    assignments made since the last commit or rollback. *)

Record Db := mkDb {
  table : list Payment.t;
  session_new : list Payment.t;
  session_dirty : list (string * PaymentStatus)
}.

(** A database between two requests: nothing pending in the session. *)
Definition clean (rows : list Payment.t) : Db := mkDb rows [] [].

Definition empty_db : Db := clean [].

Definition M (A : Type) : Type := Db -> Result A * Db.

Definition ret {A} (a : A) : M A := fun db => (Ok a, db).

Definition bind {A B} (m : M A) (f : A -> M B) : M B :=
  fun db =>
    match m db with
    | (Ok a, db') => f a db'
    | (Raise e, db') => (Raise e, db')
    end.

Definition lift {A} (r : Result A) : M A := fun db => (r, db).

Notation "x <- m ;; k" := (bind m (fun x => k))
  (at level 61, m at next level, right associativity).
Notation "m ;; k" := (bind m (fun _ => k))
  (at level 61, right associativity).

(** UPDATE payment SET status = s WHERE id = i *)
Definition update_status (rows : list Payment.t) (u : string * PaymentStatus)
  : list Payment.t :=
  map (fun p => if String.eqb (Payment.id p) (fst u)
                then Payment.set_status (snd u) p else p) rows.

Definition has_id (i : string) (rows : list Payment.t) : bool :=
  existsb (fun p => String.eqb (Payment.id p) i) rows.

(** INSERT of one row: the engine must take it and its primary key
    must be new. *)
Definition storable (env : Env) (rows : list Payment.t) (p : Payment.t) : bool :=
  engine_accepts env p && negb (has_id (Payment.id p) rows).

(** INSERT of the pending rows, one by one. *)
Fixpoint insert_all (env : Env) (rows new : list Payment.t)
  : option (list Payment.t) :=
  match new with
  | [] => Some rows
  | p :: ps =>
      if storable env rows p
      then insert_all env (rows ++ [p]) ps
      else None
  end.

(** What the session sees: the table with the unit of work applied. *)
Definition session_rows (db : Db) : list Payment.t :=
  fold_left update_status (session_dirty db) (table db) ++ session_new db.

(** db.session.add(payment) *)
Definition session_add (p : Payment.t) : M unit :=
  fun db => (Ok tt, mkDb (table db) (session_new db ++ [p]) (session_dirty db)).

(** payment.status = s, on an object the session tracks *)
Definition session_set_status (i : string) (s : PaymentStatus) : M unit :=
  fun db => (Ok tt, mkDb (table db) (session_new db) (session_dirty db ++ [(i, s)])).

(** db.session.commit(): either the whole unit of work reaches the table,
    or the commit raises and the table is as before.  The objects of the
    session are expired: their attributes are read from the table again
    when next used ([session_refresh]). *)
Definition session_commit (env : Env) : M unit :=
  fun db =>
    match insert_all env (fold_left update_status (session_dirty db) (table db))
                     (session_new db) with
    | Some rows => (Ok tt, mkDb rows [] [])
    | None => (Raise (Exception "IntegrityError"), db)
    end.

(** db.session.rollback() *)
Definition rollback (db : Db) : Db := mkDb (table db) [] [].

(** The row with primary key [i], if any. *)
Definition by_id (i : string) (rows : list Payment.t) : option Payment.t :=
  find (fun p => String.eqb (Payment.id p) i) rows.

(** db.session.get(Payment, payment_id): the row, loaded, or [None]. *)
Definition session_get (payment_id : string) : M (option Payment.t) :=
  fun db =>
    match by_id payment_id (session_rows db) with
    | Some row =>
        match load row with
        | Ok payment => (Ok (Some payment), db)
        | Raise e => (Raise e, db)
        end
    | None => (Ok None, db)
    end.

(** The first attribute read of an object the commit has expired: its
    row is loaded again. *)
Definition session_refresh (payment : Payment.t) : M Payment.t :=
  fun db =>
    match by_id (Payment.id payment) (session_rows db) with
    | Some row => (load row, db)
    | None => (Raise (Exception "ObjectDeletedError"), db)
    end.

(** SELECT ... LIMIT ? OFFSET ? as SQLite (the engine of app.py 16)
    answers it: a negative LIMIT is no bound, a negative OFFSET is zero. *)
Definition sql_offset (offset : Z) (rows : list Payment.t) : list Payment.t :=
  skipn (Z.to_nat offset) rows.

Definition sql_limit (limit : Z) (rows : list Payment.t) : list Payment.t :=
  if limit <? 0 then rows else firstn (Z.to_nat limit) rows.

Definition int64 (z : Z) : bool := (- 2 ^ 63 <=? z) && (z <? 2 ^ 63).

(** db.session.execute(db.select(Payment).offset(offset).limit(limit))
    .scalars().all(): the rows of the page, each loaded; the driver
    refuses a parameter that is not a 64-bit integer. *)
Definition session_select (offset limit : Z) : M (list Payment.t) :=
  fun db =>
    if int64 offset && int64 limit
    then (load_all (sql_limit limit (sql_offset offset (session_rows db))), db)
    else (Raise (Exception "OverflowError"), db).

(** *** Validation (app.py 58-66, 76-81) *)

Definition card_number_re : regex :=            (* ^\d{16}$ *)
  Seq Bol (Seq (Rep 16 16 Digit) Eol).

Definition expiry_month_re : regex :=           (* ^(0[1-9]|1[0-2])$ *)
  Seq Bol (Seq (Alt (Seq (Lit "0") (Range "1" "9"))
                    (Seq (Lit "1") (Range "0" "2"))) Eol).

Definition expiry_year_re : regex :=            (* ^\d{4}$ *)
  Seq Bol (Seq (Rep 4 4 Digit) Eol).

Definition cvv_re : regex :=                    (* ^\d{3,4}$ *)
  Seq Bol (Seq (Rep 3 4 Digit) Eol).

(** The messages of the ValueError [int(s)] raises: the literal is not
    one (the format is %.200R), or it has too many digits. *)
Definition invalid_literal (s : string) : string :=
  "invalid literal for int() with base 10: " ++ substring 0 200 (repr s).

Definition too_many_digits (s : string) : string :=
  "Exceeds the limit (4300 digits) for integer string conversion: value has "
  ++ NilZero.string_of_uint (N.to_uint (count_decimal s))
  ++ " digits; use sys.set_int_max_str_digits() to increase the limit".

Definition int_of (s : string) : Result Z :=
  match Py.int s with
  | Some z => Ok z
  | None =>
      Raise (ValueError (match literal s with
                         | Some _ => too_many_digits s
                         | None => invalid_literal s
                         end))
  end.

Definition CardDetails_validate (env : Env) (self : CardDetails.t) : Result unit :=
  if negb (re_match card_number_re (CardDetails.card_number self))
  then Raise (ValueError "Card number must be 16 digits")
  else if negb (re_match expiry_month_re (CardDetails.expiry_month self))
  then Raise (ValueError "Invalid expiry month")
  else if negb (re_match expiry_year_re (CardDetails.expiry_year self))
  then Raise (ValueError "Invalid expiry year")
  else match int_of (CardDetails.expiry_year self) with
       | Raise e => Raise e
       | Ok year =>
           if year <? now_year env
           then Raise (ValueError "Invalid expiry year")
           else if negb (re_match cvv_re (CardDetails.cvv self))
           then Raise (ValueError "CVV must be 3 or 4 digits")
           else Ok tt
       end.

(** The [isinstance] test of line 79 holds of every request the handler
    builds: [card_details] is typed as a [CardDetails]. *)
Definition PaymentRequest_validate (env : Env) (self : PaymentRequest.t)
  : Result unit :=
  if Qle_bool (PaymentRequest.amount self) 0%Q
  then Raise (ValueError "Amount must be greater than 0")
  else CardDetails_validate env (PaymentRequest.card_details self).

(** *** Helper functions (app.py 84-91) *)

Definition getenv_API_KEY (env : Env) (default : string) : string :=
  match API_KEY env with Some v => v | None => default end.

Definition same_key (api_key : option string) (expected : string) : bool :=
  match api_key with
  | Some k => String.eqb k expected
  | None => false
  end.

Definition validate_api_key (env : Env) (api_key : option string) : Result unit :=
  if negb (same_key api_key (getenv_API_KEY env "sk_test_123"))
  then Raise (ValueError "Invalid API key")
  else Ok tt.

Definition get_last_four_digits (card_number : string) : string :=
  last_chars 4 card_number.

(** *** Responses: [jsonify(...)] and the status code *)

Inductive Body :=
| Detail (detail : string)              (* {"detail": ...} *)
| PaymentJson (payment : Payment.t)     (* the eight keys of one payment *)
| PaymentsJson (payments : list Payment.t).

Definition Response : Type := Body * Z.

(** The two [except] clauses that close every endpoint; [rolls_back]
    tells whether the second one calls [db.session.rollback()]. *)
Definition except (rolls_back : bool) (body : M Response) (db : Db)
  : Response * Db :=
  match body db with
  | (Ok r, db') => (r, db')
  | (Raise (ValueError msg), db') => ((Detail msg, 400), db')
  | (Raise (Exception _), db') =>
      ((Detail "Internal server error", 500),
       if rolls_back then rollback db' else db')
  end.

(** *** POST /v1/payments (app.py 94-153) *)

(** Lines 119-123: the verdict on a card number. *)
Definition authorize (card_number : string) : PaymentStatus :=
  if startswith card_number "4111" then SUCCEEDED else FAILED.

(** Lines 127-134, with the column defaults [id] and [created_at]. *)
Definition new_payment (env : Env) (payment_request : PaymentRequest.t)
           (status_value : PaymentStatus) : Payment.t :=
  Payment.mk
    (uuid4 env)
    (PaymentRequest.amount payment_request)
    (PaymentRequest.currency payment_request)
    status_value
    (utcnow env)
    (PaymentRequest.description payment_request)
    (PaymentRequest.metadata payment_request)
    (get_last_four_digits
       (CardDetails.card_number (PaymentRequest.card_details payment_request))).

(** [payment_request] is the object lines 103-116 build from the body. *)
Definition create_payment_try (env : Env) (api_key : option string)
           (payment_request : PaymentRequest.t) : M Response :=
  lift (validate_api_key env api_key) ;;
  lift (PaymentRequest_validate env payment_request) ;;
  match authorize (CardDetails.card_number
                     (PaymentRequest.card_details payment_request)) with
  | SUCCEEDED =>
      let payment := new_payment env payment_request SUCCEEDED in
      session_add payment ;;
      session_commit env ;;
      payment <- session_refresh payment ;;
      ret (PaymentJson payment, 201)
  | _ => ret (Detail "Card declined", 400)
  end.

Definition create_payment (env : Env) (api_key : option string)
           (payment_request : PaymentRequest.t) (db : Db) : Response * Db :=
  except true (create_payment_try env api_key payment_request) db.

(** *** GET /v1/payments/<payment_id> (app.py 155-179) *)

Definition get_payment_try (env : Env) (api_key : option string)
           (payment_id : string) : M Response :=
  lift (validate_api_key env api_key) ;;
  payment <- session_get payment_id ;;
  match payment with
  | None => ret (Detail "Payment not found", 404)
  | Some payment => ret (PaymentJson payment, 200)
  end.

Definition get_payment (env : Env) (api_key : option string)
           (payment_id : string) (db : Db) : Response * Db :=
  except false (get_payment_try env api_key payment_id) db.

(** *** POST /v1/payments/<payment_id>/refund (app.py 181-218) *)

(** Truth value of [data.get('amount')]: [None] and zero are false. *)
Definition truthy (refund_amount : option Q) : bool :=
  match refund_amount with
  | Some q => negb (Qeq_bool q 0%Q)
  | None => false
  end.

(** [refund_amount > amount], for a number [refund_amount]. *)
Definition exceeds (refund_amount : option Q) (amount : Q) : bool :=
  match refund_amount with
  | Some q => negb (Qle_bool q amount)
  | None => false
  end.

Definition refund_payment_try (env : Env) (api_key : option string)
           (payment_id : string) (refund_amount : option Q) : M Response :=
  lift (validate_api_key env api_key) ;;
  payment <- session_get payment_id ;;
  match payment with
  | None => ret (Detail "Payment not found", 404)
  | Some payment =>
      if negb (PaymentStatus_eqb (Payment.status payment) SUCCEEDED)
      then ret (Detail "Payment cannot be refunded", 400)
      else if truthy refund_amount
              && exceeds refund_amount (Payment.amount payment)
      then ret (Detail "Refund amount exceeds payment amount", 400)
      else
        session_set_status (Payment.id payment) REFUNDED ;;
        session_commit env ;;
        payment <- session_refresh payment ;;
        ret (PaymentJson payment, 200)
  end.

Definition refund_payment (env : Env) (api_key : option string)
           (payment_id : string) (refund_amount : option Q) (db : Db)
  : Response * Db :=
  except true (refund_payment_try env api_key payment_id refund_amount) db.

(** *** GET /v1/payments (app.py 220-250) *)

(** [int(request.args.get(name, default))] *)
Definition int_arg (arg : option string) (default : Z) : Result Z :=
  match arg with
  | Some s => int_of s
  | None => Ok default
  end.

Definition list_payments_try (env : Env) (api_key : option string)
           (limit_arg offset_arg : option string) : M Response :=
  lift (validate_api_key env api_key) ;;
  limit <- lift (int_arg limit_arg 10) ;;
  offset <- lift (int_arg offset_arg 0) ;;
  payments <- session_select offset limit ;;
  ret (PaymentsJson payments, 200).

Definition list_payments (env : Env) (api_key : option string)
           (limit_arg offset_arg : option string) (db : Db) : Response * Db :=
  except false (list_payments_try env api_key limit_arg offset_arg) db.

(** *** The service as a transition system *)

Inductive Call :=
| POST_payments (api_key : option string) (body : PaymentRequest.t)
| GET_payment (api_key : option string) (payment_id : string)
| POST_refund (api_key : option string) (payment_id : string)
              (amount : option Q)
| GET_payments (api_key : option string) (limit offset : option string).

Definition serve (env : Env) (c : Call) (db : Db) : Response * Db :=
  match c with
  | POST_payments k body => create_payment env k body db
  | GET_payment k i => get_payment env k i db
  | POST_refund k i a => refund_payment env k i a db
  | GET_payments k l o => list_payments env k l o db
  end.

(** The databases the service can be in: it starts empty and changes
    only through requests. *)
Inductive reachable : Db -> Prop :=
| reachable_empty : reachable empty_db
| reachable_serve env c db :
    reachable db -> reachable (snd (serve env c db)).

(** What holds of every reachable database. *)
Definition row_ok (p : Payment.t) : Prop :=
  (0 < Payment.amount p)%Q
  /\ (Payment.status p = SUCCEEDED \/ Payment.status p = REFUNDED)
  /\ String.length (Payment.last_four p) = 4%nat.

Definition consistent (db : Db) : Prop :=
  session_new db = []
  /\ session_dirty db = []
  /\ Forall row_ok (table db)
  /\ NoDup (map Payment.id (table db)).

(** *** Sample data *)

Definition nl : string := String newline EmptyString.

(** A driver that takes every row. *)
Definition takes_all (p : Payment.t) : bool := true.

Definition env_with_id (i : string) : Env := mkEnv None 2026 i 0 takes_all.

Definition env0 : Env := env_with_id "id-1".

Definition key0 : option string := Some "sk_test_123".

Definition card0 : CardDetails.t :=
  CardDetails.mk "4111111111111111" "12" "2027" "123" "Test User".

Definition request0 : PaymentRequest.t :=
  PaymentRequest.mk (1000 # 1) "USD" (Some "Test payment") None card0.

Definition payment0 (i : string) (s : PaymentStatus) : Payment.t :=
  Payment.mk i (1000 # 1) "USD" s 0 (Some "Test payment") None "1111".

(** A request that passes validation with a currency [Currency] does
    not have, the row it makes, and the database it leaves. *)
Definition request_eur : PaymentRequest.t :=
  PaymentRequest.mk (1000 # 1) "EUR" (Some "Test payment") None card0.

Definition payment_eur : Payment.t :=
  Payment.mk "id-1" (1000 # 1) "EUR" SUCCEEDED 0 (Some "Test payment") None "1111".

Definition db_eur : Db := snd (create_payment env0 key0 request_eur empty_db).

(** The database after one, and after three, successful creations. *)
Definition db1 : Db := snd (create_payment env0 key0 request0 empty_db).

Definition db3 : Db :=
  snd (create_payment (env_with_id "id-3") key0 request0
         (snd (create_payment (env_with_id "id-2") key0 request0 db1))).

End App.

(** ** Vocabulary of the statements *)

Module Spec.
Import Py.

(** Every character of [s] satisfies [p]. *)
Fixpoint all_chars (p : ascii -> bool) (s : string) : bool :=
  match s with
  | EmptyString => true
  | String c s' => p c && all_chars p s'
  end.



(** [n] decimal digits, then nothing or one newline: the subjects
    [^\d{n}$] matches. *)
Definition digits_then_end (n : nat) (s : string) : Prop :=
  exists d, String.length d = n /\ all_chars is_decimal d = true
            /\ (s = d \/ s = d ++ String newline EmptyString).

End Spec.

(** ** Vocabulary of the statements about whole requests *)

Module Terms.
Import Py Spec App.

(** The X-API-Key header a request carries. *)
Definition call_key (c : Call) : option string :=
  match c with
  | POST_payments k _ => k
  | GET_payment k _ => k
  | POST_refund k _ _ => k
  | GET_payments k _ _ => k
  end.


(** The twelve month texts. *)
Definition months : list string :=
  ["01"; "02"; "03"; "04"; "05"; "06"; "07"; "08"; "09"; "10"; "11"; "12"].

(** A text followed by nothing or by one newline. *)
Definition then_end (m s : string) : Prop := s = m \/ s = m ++ nl.

Definition month_text (s : string) : Prop :=
  exists m, In m months /\ then_end m s.

(** Four digits, then nothing or a newline, that [int] reads as a year
    not before the current one. *)
Definition year_text (env : Env) (s : string) : Prop :=
  digits_then_end 4 s
  /\ exists year, Py.int s = Some year /\ (now_year env <= year)%Z.

Definition cvv_text (s : string) : Prop :=
  digits_then_end 3 s \/ digits_then_end 4 s.

(** The details [CardDetails.validate] raises. *)
Definition number_detail : string := "Card number must be 16 digits".
Definition month_detail : string := "Invalid expiry month".
Definition year_detail : string := "Invalid expiry year".
Definition cvv_detail : string := "CVV must be 3 or 4 digits".

End Terms.

(** ** Facts about the Python primitives *)

Module PyFacts.
Import Py Spec.

Lemma at_end_iff s :
  at_end s = true <-> s = EmptyString \/ s = String newline EmptyString.
Proof.
  destruct s as [|c [|c' t]]; simpl.
  - split; auto.
  - rewrite Ascii.eqb_eq. split.
    + intros ->. now right.
    + intros [H|H]; [discriminate | now inversion H].
  - split; [discriminate | intros [H|H]; discriminate].
Qed.

(** The exact repetition [\d{n}] consumes [n] digits and goes on. *)
Lemma rep_req_exact p n : forall pos s k,
  rep_req (one_char p) n 0 pos s k = true <->
  exists d t, s = d ++ t /\ String.length d = n /\ all_chars p d = true
              /\ k (pos + n) t = true.
Proof.
  induction n as [|n IH]; intros pos s k; simpl.
  - rewrite Nat.add_0_r. split.
    + intros H. exists EmptyString, s. auto.
    + intros (d & t & -> & Hlen & _ & Hk).
      destruct d; [exact Hk | discriminate].
  - destruct s as [|c s]; simpl.
    + split; [discriminate|].
      intros (d & t & Hs & Hlen & _).
      destruct d; discriminate.
    + rewrite andb_true_iff, IH. split.
      * intros (Hc & d & t & -> & Hlen & Hall & Hk).
        exists (String c d), t. simpl. rewrite Hc, Hall, Hlen.
        rewrite <- Nat.add_succ_comm. auto.
      * intros (d & t & Hs & Hlen & Hall & Hk).
        destruct d as [|c' d]; [discriminate|].
        simpl in Hs, Hlen, Hall. inversion Hs; subst c' s.
        apply andb_true_iff in Hall as [Hc Hall]. split; [exact Hc|].
        exists d, t. rewrite Nat.add_succ_comm. auto.
Qed.

Lemma re_match_digits n s :
  re_match (Seq Bol (Seq (Rep n n Digit) Eol)) s = true <-> digits_then_end n s.
Proof.
  unfold re_match, digits_then_end. cbn [rmatch].
  rewrite Nat.sub_diag. cbn [Nat.eqb andb].
  rewrite rep_req_exact. split.
  - intros (d & t & -> & Hlen & Hall & Hk).
    rewrite andb_true_r in Hk. apply at_end_iff in Hk.
    exists d. repeat split; try assumption.
    destruct Hk as [-> | ->]; [left | now right].
    clear. induction d; simpl; congruence.
  - intros (d & Hlen & Hall & [-> | ->]).
    + exists d, EmptyString. repeat split; try assumption.
      clear. induction d; simpl; congruence.
    + exists d, (String newline EmptyString). auto.
Qed.

Lemma length_append (a b : string) :
  String.length (a ++ b) = String.length a + String.length b.
Proof. induction a; simpl; congruence. Qed.

Lemma digits_then_end_length n s :
  digits_then_end n s -> n <= String.length s <= S n.
Proof.
  intros (d & Hlen & _ & [-> | ->]).
  - lia.
  - rewrite length_append. simpl. lia.
Qed.

(** *** Slices *)

Lemma substring_length : forall s n m,
  n + m <= String.length s -> String.length (substring n m s) = m.
Proof.
  induction s as [|c s IH]; intros n m H; simpl in H.
  - assert (n = 0) by lia. assert (m = 0) by lia. now subst.
  - destruct n as [|n]; destruct m as [|m]; simpl; auto.
    + rewrite IH; simpl; lia.
    + apply IH. lia.
    + apply IH. lia.
Qed.

Lemma substring_split : forall n s,
  n <= String.length s ->
  s = substring 0 n s ++ substring n (String.length s - n) s.
Proof.
  induction n as [|n IH]; intros s H.
  - rewrite Nat.sub_0_r. clear H.
    induction s as [|c s IHs]; simpl; [reflexivity|].
    destruct s; simpl in *; congruence.
  - destruct s as [|c s]; simpl in H; [lia|].
    simpl. f_equal. apply IH. lia.
Qed.

(** [s[-n:]] is the end of [s], [n] characters long. *)
Lemma last_chars_suffix n s :
  n <= String.length s ->
  String.length (last_chars n s) = n
  /\ exists front, s = front ++ last_chars n s.
Proof.
  intros H. unfold last_chars. split.
  - apply substring_length. lia.
  - exists (substring 0 (String.length s - n) s).
    pose proof (substring_split (String.length s - n) s) as Hs.
    replace (String.length s - (String.length s - n)) with n in Hs by lia.
    apply Hs. lia.
Qed.

End PyFacts.

Module IntFacts.
Import Py Spec.






(** *** [int] on the subjects of [^\d{n}$] *)

Lemma decimal_plain c :
  is_decimal c = true ->
  is_space c = false /\ Ascii.eqb c minus_sign = false
  /\ Ascii.eqb c plus_sign = false.
Proof.
  destruct c as [[] [] [] [] [] [] [] []]; vm_compute; intuition discriminate.
Qed.

Lemma rstrip_digits_newline : forall d,
  all_chars is_decimal d = true ->
  rstrip d = d /\ rstrip (d ++ String newline EmptyString) = d.
Proof.
  induction d as [|c d IH]; simpl; intros H; [split; reflexivity|].
  apply andb_true_iff in H as [Hc Hd].
  destruct (IH Hd) as [-> ->].
  apply decimal_plain in Hc as [-> _].
  destruct d; split; reflexivity.
Qed.

Lemma digits_total : forall d acc b,
  all_chars is_decimal d = true -> d <> EmptyString \/ b = true ->
  exists v, digits acc b d = Some v.
Proof.
  induction d as [|c d IH]; simpl; intros acc b H Hne.
  - destruct Hne as [Hne | ->]; [congruence | eauto].
  - apply andb_true_iff in H as [-> Hd]. apply IH; auto.
Qed.

Lemma count_decimal_app a b :
  count_decimal (a ++ b) = (count_decimal a + count_decimal b)%N.
Proof.
  induction a as [|c a IH]; simpl; [reflexivity|]. rewrite IH. lia.
Qed.

Lemma count_decimal_digits : forall d,
  all_chars is_decimal d = true ->
  count_decimal d = N.of_nat (String.length d).
Proof.
  induction d as [|c d IH]; simpl; intros H; [reflexivity|].
  apply andb_true_iff in H as [-> Hd]. rewrite (IH Hd). lia.
Qed.

(** After [^\d{n}$] has matched, with [n] positive and within the bound
    on digits, [int] does not raise. *)
Lemma int_digits_then_end n s :
  0 < n <= 4300 -> digits_then_end n s -> exists v, Py.int s = Some v.
Proof.
  intros Hn (d & Hlen & Hall & Hs).
  assert (Hcount : (max_str_digits <? count_decimal s)%N = false).
  { apply N.ltb_ge. unfold max_str_digits.
    destruct Hs as [-> | ->]; rewrite ?count_decimal_app;
      rewrite (count_decimal_digits d Hall); simpl; lia. }
  destruct d as [|c d]; [simpl in Hlen; lia|].
  assert (Hstrip : strip s = String c d).
  { pose proof Hall as Hc. simpl in Hc. apply andb_true_iff in Hc as [Hc _].
    apply decimal_plain in Hc as [Hc _].
    unfold strip. destruct (rstrip_digits_newline _ Hall) as [H1 H2].
    destruct Hs as [-> | ->]; simpl lstrip; rewrite Hc; assumption. }
  unfold Py.int, literal. rewrite Hstrip.
  pose proof Hall as Hc. simpl in Hc. apply andb_true_iff in Hc as [Hc _].
  apply decimal_plain in Hc as (_ & -> & ->).
  destruct (digits_total (String c d) 0 false Hall) as [v Hv];
    [left; discriminate|].
  rewrite Hv, Hcount. eauto.
Qed.

End IntFacts.

(** ** Facts about the handlers *)

Module AppFacts.
Import Py Spec PyFacts IntFacts App.

Local Open Scope Z_scope.

(** *** The validators *)

Lemma validate_api_key_cases env k :
  validate_api_key env k = Ok tt
  \/ validate_api_key env k = Raise (ValueError "Invalid API key").
Proof. unfold validate_api_key. destruct (negb _); auto. Qed.

Lemma int_of_cases s :
  (exists z, int_of s = Ok z) \/ (exists m, int_of s = Raise (ValueError m)).
Proof. unfold int_of. destruct (Py.int s); eauto. Qed.


Lemma CardDetails_validate_cases env cd :
  CardDetails_validate env cd = Ok tt
  \/ exists m, CardDetails_validate env cd = Raise (ValueError m).
Proof.
  unfold CardDetails_validate.
  destruct (negb (re_match card_number_re _)); eauto.
  destruct (negb (re_match expiry_month_re _)); eauto.
  destruct (negb (re_match expiry_year_re _)); eauto.
  destruct (int_of_cases (CardDetails.expiry_year cd)) as [[z ->] | [m ->]];
    eauto.
  destruct (z <? now_year env); eauto.
  destruct (negb (re_match cvv_re _)); eauto.
Qed.

Lemma PaymentRequest_validate_cases env req :
  PaymentRequest_validate env req = Ok tt
  \/ exists m, PaymentRequest_validate env req = Raise (ValueError m).
Proof.
  unfold PaymentRequest_validate. destruct (Qle_bool _ _); eauto.
  apply CardDetails_validate_cases.
Qed.

(** A request that passes validation has a positive amount and a card
    number [^\d{16}$] matches. *)
Lemma PaymentRequest_validate_ok env req :
  PaymentRequest_validate env req = Ok tt ->
  (0 < PaymentRequest.amount req)%Q
  /\ CardDetails_validate env (PaymentRequest.card_details req) = Ok tt.
Proof.
  unfold PaymentRequest_validate.
  destruct (Qle_bool _ _) eqn:Ha; [discriminate|]. intros H. split; [|exact H].
  apply Qnot_le_lt. intros Hle. apply Qle_bool_iff in Hle. congruence.
Qed.

Lemma CardDetails_validate_number env cd :
  CardDetails_validate env cd = Ok tt ->
  digits_then_end 16 (CardDetails.card_number cd).
Proof.
  unfold CardDetails_validate.
  destruct (re_match card_number_re _) eqn:H; [|discriminate].
  intros _. now apply re_match_digits.
Qed.

Lemma validated_last_four env req :
  PaymentRequest_validate env req = Ok tt ->
  let card_number := CardDetails.card_number (PaymentRequest.card_details req) in
  String.length (get_last_four_digits card_number) = 4%nat
  /\ exists front, card_number = front ++ get_last_four_digits card_number.
Proof.
  intros H. apply PaymentRequest_validate_ok in H as [_ H].
  apply CardDetails_validate_number, digits_then_end_length in H.
  apply last_chars_suffix. lia.
Qed.

(** *** The order of the card checks *)

(** The four tests of [CardDetails.validate], in the order of the
    source; the [int] of line 63 is only reached on a year the pattern
    has matched, where it does not raise. *)
Lemma CardDetails_validate_first_failure env cd :
  CardDetails_validate env cd =
  if negb (re_match card_number_re (CardDetails.card_number cd))
  then Raise (ValueError "Card number must be 16 digits")
  else if negb (re_match expiry_month_re (CardDetails.expiry_month cd))
  then Raise (ValueError "Invalid expiry month")
  else if negb (re_match expiry_year_re (CardDetails.expiry_year cd))
          || match Py.int (CardDetails.expiry_year cd) with
             | Some year => year <? now_year env
             | None => true
             end
  then Raise (ValueError "Invalid expiry year")
  else if negb (re_match cvv_re (CardDetails.cvv cd))
  then Raise (ValueError "CVV must be 3 or 4 digits")
  else Ok tt.
Proof.
  unfold CardDetails_validate.
  destruct (negb (re_match card_number_re _)); [reflexivity|].
  destruct (negb (re_match expiry_month_re _)); [reflexivity|].
  destruct (re_match expiry_year_re _) eqn:E; [|reflexivity]. simpl.
  apply re_match_digits, int_digits_then_end in E as [year E]; [|lia].
  unfold int_of. rewrite E. reflexivity.
Qed.

(** Every 16 digits followed by a newline pass the card number test. *)
Lemma card_number_re_newline d :
  String.length d = 16%nat -> all_chars is_decimal d = true ->
  re_match card_number_re (d ++ nl) = true
  /\ String.length (d ++ nl) = 17%nat.
Proof.
  intros Hlen Hall. split.
  - apply re_match_digits. exists d. auto.
  - rewrite length_append, Hlen. reflexivity.
Qed.

(** *** Rows and their primary keys *)

Lemma has_id_false i rows :
  has_id i rows = false -> ~ In i (map Payment.id rows).
Proof.
  unfold has_id. intros H Hin. apply in_map_iff in Hin as (p & Hp & Hin).
  assert (existsb (fun q => String.eqb (Payment.id q) i) rows = true); [|congruence].
  apply existsb_exists. exists p. split; [exact Hin|].
  now apply String.eqb_eq.
Qed.

Lemma update_status_ids rows u :
  map Payment.id (update_status rows u) = map Payment.id rows.
Proof.
  unfold update_status. rewrite map_map. apply map_ext.
  intros p. now destruct (String.eqb _ _).
Qed.


Lemma find_by_id rows : forall p,
  NoDup (map Payment.id rows) -> In p rows ->
  by_id (Payment.id p) rows = Some p.
Proof.
  unfold by_id.
  induction rows as [|r rows IH]; intros p Hnd Hin; [contradiction|].
  simpl in *. inversion Hnd as [|? ? Hnotin Hnd']; subst.
  destruct Hin as [-> | Hin].
  - now rewrite String.eqb_refl.
  - destruct (String.eqb (Payment.id r) (Payment.id p)) eqn:E.
    + apply String.eqb_eq in E. exfalso. apply Hnotin. rewrite E.
      now apply in_map.
    + now apply IH.
Qed.

Lemma find_update_status i s rows : forall p,
  by_id i rows = Some p ->
  by_id i (update_status rows (i, s)) = Some (Payment.set_status s p).
Proof.
  unfold by_id.
  induction rows as [|r rows IH]; intros p; simpl; [discriminate|].
  destruct (String.eqb (Payment.id r) i) eqn:E; simpl.
  - rewrite E. now intros [= ->].
  - rewrite E. apply IH.
Qed.

Lemma update_status_other i s rows q :
  In q rows -> Payment.id q <> i -> In q (update_status rows (i, s)).
Proof.
  intros Hin Hne. unfold update_status. apply in_map_iff. exists q.
  split; [|exact Hin]. simpl.
  apply String.eqb_neq in Hne. now rewrite Hne.
Qed.


Lemma find_id_eq i rows p :
  by_id i rows = Some p ->
  In p rows /\ Payment.id p = i.
Proof.
  unfold by_id. intros H. apply find_some in H as [Hin Hid].
  split; [exact Hin | now apply String.eqb_eq].
Qed.

Lemma by_id_new i rows p :
  has_id i rows = false -> Payment.id p = i ->
  by_id i (rows ++ [p]) = Some p.
Proof.
  unfold has_id, by_id. intros H <-.
  induction rows as [|r rows IH]; simpl in *.
  - now rewrite String.eqb_refl.
  - apply orb_false_iff in H as [-> H]. now apply IH.
Qed.

Lemma loads_set_status s p : loads (Payment.set_status s p) = loads p.
Proof. reflexivity. Qed.

Lemma load_all_run rows :
  load_all rows =
  if forallb loads rows then Ok rows else Raise (Exception "LookupError").
Proof.
  induction rows as [|r rows IH]; simpl; [reflexivity|].
  unfold load at 1. destruct (loads r); simpl; [|reflexivity].
  rewrite IH. now destruct (forallb loads rows).
Qed.

(** *** The handlers on a database whose session is clean *)

Lemma session_rows_clean rows : session_rows (clean rows) = rows.
Proof. unfold session_rows. simpl. apply app_nil_r. Qed.

Lemma session_refresh_clean p rows :
  session_refresh p (clean rows) =
  match by_id (Payment.id p) rows with
  | Some row => (load row, clean rows)
  | None => (Raise (Exception "ObjectDeletedError"), clean rows)
  end.
Proof. unfold session_refresh. now rewrite session_rows_clean. Qed.

Lemma create_payment_run env k req rows :
  validate_api_key env k = Ok tt ->
  PaymentRequest_validate env req = Ok tt ->
  create_payment env k req (clean rows) =
  if startswith (CardDetails.card_number (PaymentRequest.card_details req)) "4111"
  then let payment := new_payment env req SUCCEEDED in
       if storable env rows payment
       then if loads payment
            then ((PaymentJson payment, 201), clean (rows ++ [payment]))
            else ((Detail "Internal server error", 500),
                  clean (rows ++ [payment]))
       else ((Detail "Internal server error", 500), clean rows)
  else ((Detail "Card declined", 400), clean rows).
Proof.
  intros Hk Hv.
  unfold create_payment, except, create_payment_try, bind, lift, authorize.
  rewrite Hk, Hv.
  destruct (startswith _ _); [|reflexivity].
  unfold session_add, session_commit, ret. cbn [table session_new session_dirty
    clean fold_left insert_all app].
  destruct (storable env rows _) eqn:Hs; [|reflexivity].
  change (mkDb (rows ++ [new_payment env req SUCCEEDED]) [] [])
    with (clean (rows ++ [new_payment env req SUCCEEDED])).
  rewrite session_refresh_clean.
  unfold storable in Hs. apply andb_true_iff in Hs as [_ Hs].
  apply negb_true_iff in Hs.
  rewrite (by_id_new _ _ _ Hs eq_refl). unfold load.
  destruct (loads _); reflexivity.
Qed.

Lemma create_payment_invalid env k req db m :
  validate_api_key env k = Raise (ValueError m)
  \/ (validate_api_key env k = Ok tt
      /\ PaymentRequest_validate env req = Raise (ValueError m)) ->
  create_payment env k req db = ((Detail m, 400), db).
Proof.
  unfold create_payment, except, create_payment_try, bind, lift.
  intros [-> | [-> ->]]; reflexivity.
Qed.

Lemma refund_payment_run env k i a rows :
  validate_api_key env k = Ok tt ->
  refund_payment env k i a (clean rows) =
  match by_id i rows with
  | None => ((Detail "Payment not found", 404), clean rows)
  | Some payment =>
      if negb (loads payment)
      then ((Detail "Internal server error", 500), clean rows)
      else if negb (PaymentStatus_eqb (Payment.status payment) SUCCEEDED)
      then ((Detail "Payment cannot be refunded", 400), clean rows)
      else if truthy a && exceeds a (Payment.amount payment)
      then ((Detail "Refund amount exceeds payment amount", 400), clean rows)
      else ((PaymentJson (Payment.set_status REFUNDED payment), 200),
            clean (update_status rows (Payment.id payment, REFUNDED)))
  end.
Proof.
  intros Hk.
  unfold refund_payment, except, refund_payment_try, bind, lift, session_get.
  rewrite Hk, session_rows_clean.
  destruct (by_id i rows) as [p|] eqn:Hfind; [|reflexivity].
  unfold load. destruct (loads p) eqn:Hl; [|reflexivity]. simpl.
  destruct (PaymentStatus_eqb _ _); [|reflexivity]. simpl.
  destruct (truthy a && _); [reflexivity|].
  unfold session_set_status, session_commit, ret.
  cbn [table session_new session_dirty clean fold_left insert_all app].
  change (mkDb (update_status rows (Payment.id p, REFUNDED)) [] [])
    with (clean (update_status rows (Payment.id p, REFUNDED))).
  rewrite session_refresh_clean.
  apply find_id_eq in Hfind as Hp. destruct Hp as [_ Hid]. rewrite Hid.
  rewrite (find_update_status _ REFUNDED _ _ Hfind).
  unfold load. rewrite loads_set_status, Hl. reflexivity.
Qed.

Lemma refund_payment_invalid env k i a db :
  validate_api_key env k = Raise (ValueError "Invalid API key") ->
  refund_payment env k i a db = ((Detail "Invalid API key", 400), db).
Proof.
  unfold refund_payment, except, refund_payment_try, bind, lift.
  now intros ->.
Qed.

Lemma get_payment_db env k i db : snd (get_payment env k i db) = db.
Proof.
  unfold get_payment, except, get_payment_try, bind, lift, session_get, ret.
  destruct (validate_api_key_cases env k) as [-> | ->]; [|reflexivity].
  destruct (by_id _ _) as [row|]; [|reflexivity].
  unfold load. destruct (loads row); reflexivity.
Qed.


Lemma list_payments_db env k l o db : snd (list_payments env k l o db) = db.
Proof.
  unfold list_payments, except, list_payments_try, bind, lift, session_select, ret.
  destruct (validate_api_key_cases env k) as [-> | ->]; [|reflexivity].
  destruct (int_arg l 10) as [limit | [m | n]]; try reflexivity.
  destruct (int_arg o 0) as [offset | [m | n]]; try reflexivity.
  destruct (int64 offset && int64 limit); [|reflexivity].
  rewrite load_all_run. destruct (forallb loads _); reflexivity.
Qed.

(** *** The invariant of the service *)

Lemma consistent_clean db : consistent db -> db = clean (table db).
Proof. destruct db as [t n d]. now intros (Hn & Hd & _); simpl in *; subst. Qed.

Ltac with_clean db Hc :=
  let E := fresh "E" in
  pose proof (consistent_clean db Hc) as E;
  rewrite E in Hc |- *; clear E;
  generalize dependent (table db); intros.

Lemma row_ok_refunded p : row_ok p -> row_ok (Payment.set_status REFUNDED p).
Proof. intros (Ha & _ & Hl). repeat split; simpl; auto. Qed.

Lemma row_ok_new env req :
  PaymentRequest_validate env req = Ok tt ->
  row_ok (new_payment env req SUCCEEDED).
Proof.
  intros H. repeat split; simpl.
  - now apply PaymentRequest_validate_ok in H.
  - now left.
  - now apply validated_last_four in H.
Qed.

Lemma consistent_update rows i :
  consistent (clean rows) ->
  consistent (clean (update_status rows (i, REFUNDED))).
Proof.
  intros (_ & _ & Hall & Hnd). repeat split; simpl in *.
  - unfold update_status. apply Forall_map.
    eapply Forall_impl; [|exact Hall].
    intros p Hp. simpl. destruct (String.eqb _ _); [now apply row_ok_refunded | exact Hp].
  - now rewrite update_status_ids.
Qed.

Lemma consistent_insert env rows p :
  consistent (clean rows) -> row_ok p -> storable env rows p = true ->
  consistent (clean (rows ++ [p])).
Proof.
  intros (_ & _ & Hall & Hnd) Hp Hs. repeat split; simpl in *.
  - apply Forall_app. split; [exact Hall | now constructor].
  - rewrite map_app. apply NoDup_app; [exact Hnd | |].
    + simpl. constructor; [intros [] | constructor].
    + unfold storable in Hs. apply andb_true_iff in Hs as [_ Hs].
      apply negb_true_iff, has_id_false in Hs.
      intros a Ha [<- | []]. contradiction.
Qed.

(** The database a create-payment leaves: the one it found, or that one
    with the new row at the end of the table. *)
Lemma create_payment_db env k req rows :
  snd (create_payment env k req (clean rows)) = clean rows
  \/ (PaymentRequest_validate env req = Ok tt
      /\ storable env rows (new_payment env req SUCCEEDED) = true
      /\ snd (create_payment env k req (clean rows))
         = clean (rows ++ [new_payment env req SUCCEEDED])).
Proof.
  destruct (validate_api_key_cases env k) as [Hk | Hk].
  - destruct (PaymentRequest_validate_cases env req) as [Hv | [m Hv]].
    + rewrite create_payment_run by assumption.
      destruct (startswith _ _); [|now left]. cbv zeta.
      destruct (storable _ _ _); [|now left].
      right. destruct (loads _); auto.
    + rewrite (create_payment_invalid env k req _ m) by (now right). now left.
  - rewrite (create_payment_invalid env k req _ _ (or_introl Hk)). now left.
Qed.

(** The database a refund leaves: the one it found, or that one with the
    status of the row of the given id written. *)
Lemma refund_payment_db env k i a rows :
  snd (refund_payment env k i a (clean rows)) = clean rows
  \/ exists p,
      by_id i rows = Some p /\ Payment.id p = i
      /\ loads p = true /\ Payment.status p = SUCCEEDED
      /\ snd (refund_payment env k i a (clean rows))
         = clean (update_status rows (i, REFUNDED)).
Proof.
  destruct (validate_api_key_cases env k) as [Hk | Hk].
  - rewrite refund_payment_run by assumption.
    destruct (by_id i rows) as [p|] eqn:Hfind; [|now left].
    destruct (loads p) eqn:Hl; [|now left]. simpl.
    destruct (PaymentStatus_eqb (Payment.status p) SUCCEEDED) eqn:Hst;
      [|now left]. simpl.
    destruct (truthy a && _); [now left|].
    right. exists p. apply find_id_eq in Hfind as Hp. destruct Hp as [_ Hid].
    rewrite Hid. repeat split; auto. now destruct (Payment.status p).
  - rewrite refund_payment_invalid by assumption. now left.
Qed.

Lemma consistent_create_payment env k req db :
  consistent db -> consistent (snd (create_payment env k req db)).
Proof.
  intros Hc. with_clean db Hc.
  destruct (create_payment_db env k req l) as [-> | (Hv & Hs & ->)];
    [exact Hc|].
  eapply consistent_insert; eauto using row_ok_new.
Qed.

Lemma consistent_refund_payment env k i a db :
  consistent db -> consistent (snd (refund_payment env k i a db)).
Proof.
  intros Hc. with_clean db Hc.
  destruct (refund_payment_db env k i a l) as [-> | (p & _ & _ & _ & _ & ->)];
    [exact Hc|].
  now apply consistent_update.
Qed.

Lemma consistent_serve env c db :
  consistent db -> consistent (snd (serve env c db)).
Proof.
  intros Hc. destruct c; simpl.
  - now apply consistent_create_payment.
  - now rewrite get_payment_db.
  - now apply consistent_refund_payment.
  - now rewrite list_payments_db.
Qed.

Lemma reachable_consistent db : reachable db -> consistent db.
Proof.
  induction 1 as [|env c db _ IH].
  - repeat split; constructor.
  - now apply consistent_serve.
Qed.

Lemma reachable_row db p :
  reachable db -> In p (table db) ->
  db = clean (table db) /\ row_ok p
  /\ by_id (Payment.id p) (table db) = Some p.
Proof.
  intros Hr Hin. apply reachable_consistent in Hr.
  split; [now apply consistent_clean|].
  destruct Hr as (_ & _ & Hall & Hnd). split.
  - rewrite Forall_forall in Hall. now apply Hall.
  - now apply find_by_id.
Qed.

(** *** Creation, read backwards *)

(** A 201 comes only from the path that validates, authorizes, commits
    and reads the row back. *)
Lemma create_payment_201 env k req db body :
  consistent db ->
  fst (create_payment env k req db) = (body, 201) ->
  validate_api_key env k = Ok tt
  /\ PaymentRequest_validate env req = Ok tt
  /\ startswith (CardDetails.card_number (PaymentRequest.card_details req))
                "4111" = true
  /\ storable env (table db) (new_payment env req SUCCEEDED) = true
  /\ loads (new_payment env req SUCCEEDED) = true
  /\ body = PaymentJson (new_payment env req SUCCEEDED)
  /\ snd (create_payment env k req db)
     = clean (table db ++ [new_payment env req SUCCEEDED]).
Proof.
  intros Hc. rewrite (consistent_clean db Hc). simpl table.
  destruct (validate_api_key_cases env k) as [Hk | Hk].
  - destruct (PaymentRequest_validate_cases env req) as [Hv | [m Hv]].
    + rewrite create_payment_run by assumption.
      destruct (startswith _ _); [|discriminate]. cbv zeta.
      destruct (storable _ _ _); [|discriminate].
      destruct (loads _); [|discriminate]. simpl.
      intros [= <-]. auto 10.
    + rewrite (create_payment_invalid env k req _ m) by (now right).
      discriminate.
  - rewrite (create_payment_invalid env k req _ _ (or_introl Hk)).
    discriminate.
Qed.


(** *** Refunds *)


(** The refund of a stored SUCCEEDED payment that loads hangs on the
    amount test alone. *)
Lemma refund_succeeded_row env k a db p :
  reachable db ->
  validate_api_key env k = Ok tt ->
  In p (table db) ->
  loads p = true ->
  Payment.status p = SUCCEEDED ->
  refund_payment env k (Payment.id p) a db =
  if truthy a && exceeds a (Payment.amount p)
  then ((Detail "Refund amount exceeds payment amount", 400), db)
  else ((PaymentJson (Payment.set_status REFUNDED p), 200),
        clean (update_status (table db) (Payment.id p, REFUNDED))).
Proof.
  intros Hr Hk Hin Hl Hst.
  destruct (reachable_row db p Hr Hin) as (Hdb & _ & Hfind).
  rewrite Hdb at 1 2. rewrite refund_payment_run by assumption.
  rewrite Hfind, Hl, Hst. reflexivity.
Qed.

(** The refund of a stored payment that does not load is a 500. *)
Lemma refund_unloadable_row env k a db p :
  reachable db ->
  validate_api_key env k = Ok tt ->
  In p (table db) ->
  loads p = false ->
  refund_payment env k (Payment.id p) a db
  = ((Detail "Internal server error", 500), db).
Proof.
  intros Hr Hk Hin Hl.
  destruct (reachable_row db p Hr Hin) as (Hdb & _ & Hfind).
  rewrite Hdb at 1 2. rewrite refund_payment_run by assumption.
  now rewrite Hfind, Hl.
Qed.

(** A 200 comes only from the path that finds a SUCCEEDED row, loads it
    and commits its new status. *)
Lemma refund_payment_200 env k i a db body :
  consistent db ->
  fst (refund_payment env k i a db) = (body, 200) ->
  exists p,
    by_id i (table db) = Some p
    /\ loads p = true
    /\ Payment.status p = SUCCEEDED
    /\ body = PaymentJson (Payment.set_status REFUNDED p)
    /\ snd (refund_payment env k i a db)
       = clean (update_status (table db) (i, REFUNDED)).
Proof.
  intros Hc. rewrite (consistent_clean db Hc). simpl table.
  destruct (validate_api_key_cases env k) as [Hk | Hk].
  - rewrite refund_payment_run by assumption.
    destruct (by_id i (table db)) as [p|] eqn:Hfind; [|discriminate].
    destruct (loads p) eqn:Hl; [|discriminate]. simpl.
    destruct (PaymentStatus_eqb (Payment.status p) SUCCEEDED) eqn:Hst;
      [|discriminate]. simpl.
    destruct (truthy a && _); [discriminate|]. simpl.
    intros [= <-]. exists p.
    apply find_id_eq in Hfind as Hp. destruct Hp as [_ ->].
    repeat split; auto. now destruct (Payment.status p).
  - rewrite refund_payment_invalid by assumption. discriminate.
Qed.


End AppFacts.

(** ** The properties of the specification *)

Module Claims.
Import Py Spec PyFacts IntFacts App AppFacts.

Local Open Scope Z_scope.

Lemma db1_reachable : reachable db1.
Proof. exact (reachable_serve env0 (POST_payments key0 request0) _ reachable_empty). Defined.






(** C3. A create-payment request whose amount is at most 0 is answered
    400 with a validation detail, whatever its card details, and the
    database is left untouched; past the API key check the detail is
    the amount's. *)
Theorem create_payment_rejects_nonpositive_amount env api_key req db :
  (PaymentRequest.amount req <= 0)%Q ->
  PaymentRequest_validate env req
  = Raise (ValueError "Amount must be greater than 0")
  /\ (exists detail,
         create_payment env api_key req db = ((Detail detail, 400), db))
  /\ (validate_api_key env api_key = Ok tt ->
      create_payment env api_key req db
      = ((Detail "Amount must be greater than 0", 400), db)).
Proof.
  intros Ha. apply Qle_bool_iff in Ha.
  assert (Hv : PaymentRequest_validate env req
               = Raise (ValueError "Amount must be greater than 0"))
    by (unfold PaymentRequest_validate; now rewrite Ha).
  split; [exact Hv|]. split.
  - destruct (validate_api_key_cases env api_key) as [Hk | Hk];
      eexists; apply create_payment_invalid; eauto.
  - intros Hk. apply create_payment_invalid. auto.
Qed.

Lemma create_payment_rejects_nonpositive_amount_witness :
  create_payment env0 key0
    (PaymentRequest.mk (-100 # 1) "USD" None None card0) db1
  = ((Detail "Amount must be greater than 0", 400), db1).
Proof.
  apply (create_payment_rejects_nonpositive_amount env0 key0
           (PaymentRequest.mk (-100 # 1) "USD" None None card0) db1).
  - vm_compute. discriminate.
  - reflexivity.
Defined.









(** C8. A refund answered 200 changed the status of the payment with
    the requested id from SUCCEEDED to REFUNDED and nothing else: its
    id, amount, currency, created_at, description, metadata and
    last_four are as before, the answer is the payment as it now is,
    and every other row of the table is untouched. *)
Theorem refund_changes_only_status env api_key payment_id refund_amount db body :
  reachable db ->
  fst (refund_payment env api_key payment_id refund_amount db) = (body, 200) ->
  let db' := snd (refund_payment env api_key payment_id refund_amount db) in
  exists before after,
    by_id payment_id (table db) = Some before
    /\ by_id payment_id (table db') = Some after
    /\ body = PaymentJson after
    /\ Payment.status before = SUCCEEDED
    /\ Payment.status after = REFUNDED
    /\ Payment.id after = Payment.id before
    /\ Payment.amount after = Payment.amount before
    /\ Payment.currency after = Payment.currency before
    /\ Payment.created_at after = Payment.created_at before
    /\ Payment.description after = Payment.description before
    /\ Payment.payment_metadata after = Payment.payment_metadata before
    /\ Payment.last_four after = Payment.last_four before
    /\ (forall q, In q (table db) -> Payment.id q <> payment_id ->
                  In q (table db'))
    /\ List.length (table db') = List.length (table db).
Proof.
  intros Hr H db'. subst db'.
  apply refund_payment_200 in H as (p & Hfind & _ & Hst & -> & ->);
    [|now apply reachable_consistent].
  exists p, (Payment.set_status REFUNDED p). simpl table.
  repeat split; try assumption; try reflexivity.
  - now apply find_update_status.
  - intros q Hin Hne. now apply update_status_other.
  - unfold update_status. apply length_map.
Qed.

Lemma refund_changes_only_status_witness :
  exists before after,
    by_id "id-1" (table db1) = Some before
    /\ Payment.status after = REFUNDED
    /\ Payment.amount after = Payment.amount before
    /\ Payment.last_four after = Payment.last_four before.
Proof.
  destruct (refund_changes_only_status env0 key0 "id-1" None db1
              (PaymentJson (payment0 "id-1" REFUNDED)) db1_reachable eq_refl)
    as (before & after & H1 & _ & _ & _ & H5 & _ & H7 & _ & _ & _ & _ & H12 & _).
  exists before, after. auto.
Defined.

(** C9, as the specification words it, fails on the code: a negative
    amount is true as a truth value, so the comparison with the stored
    amount is not skipped but made, and found false; and the refund of
    the stored SUCCEEDED payment of currency "EUR" with the amount 0 is
    answered 500. *)
Lemma negative_refund_amount_is_compared :
  truthy (Some (-5 # 1)%Q) = true
  /\ exceeds (Some (-5 # 1)%Q) (Payment.amount (payment0 "id-1" SUCCEEDED)) = false
  /\ Payment.status payment_eur = SUCCEEDED
  /\ refund_payment env0 key0 (Payment.id payment_eur) (Some 0%Q) db_eur
     = ((Detail "Internal server error", 500), db_eur).
Proof. repeat split; reflexivity. Qed.

(** C9, amended.  On a stored SUCCEEDED payment whose currency is one of
    USD, UGX, KES, a refund call that gives an amount of 0 or less is
    served exactly as the call that gives none: it answers 200 and
    leaves the payment REFUNDED.  The amount 0 is false as a truth
    value, which skips the comparison with the stored amount; a negative
    amount is true and is compared, and does not exceed the stored
    amount, which is positive. *)
Theorem refund_nonpositive_amount_as_none env api_key q db p :
  reachable db ->
  validate_api_key env api_key = Ok tt ->
  In p (table db) ->
  Currency_member (Payment.currency p) = true ->
  Payment.status p = SUCCEEDED ->
  (q <= 0)%Q ->
  let refunded := Payment.set_status REFUNDED p in
  refund_payment env api_key (Payment.id p) (Some q) db
  = refund_payment env api_key (Payment.id p) None db
  /\ fst (refund_payment env api_key (Payment.id p) (Some q) db)
     = (PaymentJson refunded, 200)
  /\ by_id (Payment.id p)
           (table (snd (refund_payment env api_key (Payment.id p) (Some q) db)))
     = Some refunded
  /\ Payment.status refunded = REFUNDED
  /\ ((q == 0)%Q -> truthy (Some q) = false)
  /\ ((q < 0)%Q ->
      truthy (Some q) = true /\ exceeds (Some q) (Payment.amount p) = false).
Proof.
  intros Hr Hk Hin Hl Hst Hq refunded.
  rewrite !(refund_succeeded_row env api_key _ db p Hr Hk Hin Hl Hst).
  destruct (reachable_row db p Hr Hin) as (_ & (Hpos & _) & Hfind).
  assert (He : exceeds (Some q) (Payment.amount p) = false).
  { simpl. apply negb_false_iff, Qle_bool_iff.
    apply Qle_trans with 0%Q; [exact Hq | now apply Qlt_le_weak]. }
  rewrite He, andb_false_r. simpl.
  repeat split; try reflexivity.
  - now apply find_update_status.
  - intros E. apply negb_false_iff. now apply Qeq_bool_iff.
  - apply negb_true_iff. destruct (Qeq_bool q 0%Q) eqn:E; [|reflexivity].
    apply Qeq_bool_iff in E. rewrite E in H. now apply Qlt_irrefl in H.
Qed.

Lemma refund_nonpositive_amount_as_none_witness :
  refund_payment env0 key0 "id-1" (Some (-5 # 1)%Q) db1
  = refund_payment env0 key0 "id-1" None db1
  /\ fst (refund_payment env0 key0 "id-1" (Some 0%Q) db1)
     = (PaymentJson (payment0 "id-1" REFUNDED), 200).
Proof.
  split.
  - apply (refund_nonpositive_amount_as_none env0 key0 (-5 # 1)%Q db1
             (payment0 "id-1" SUCCEEDED) db1_reachable eq_refl
             (or_introl eq_refl) eq_refl eq_refl).
    vm_compute. discriminate.
  - apply (refund_nonpositive_amount_as_none env0 key0 0%Q db1
             (payment0 "id-1" SUCCEEDED) db1_reachable eq_refl
             (or_introl eq_refl) eq_refl eq_refl).
    vm_compute. discriminate.
Defined.







(** C4.  The validator is meant to take card numbers of exactly 16
    digits, and checks number, month, year and CVV in that order; but
    [$] also matches before a final newline, so a card number of 17
    characters, 16 digits and a newline, passes it, and so do month,
    year and CVV with a newline after them.  The payment is created and
    its [last_four] holds the newline. *)
Theorem card_number_with_newline_is_accepted :
  let number := "4111111111111111" ++ nl in
  let card := CardDetails.mk number ("12" ++ nl) ("2027" ++ nl) ("123" ++ nl)
                             "Test User" in
  String.length number = 17%nat
  /\ CardDetails_validate env0 card = Ok tt
  /\ fst (create_payment env0 key0
            (PaymentRequest.mk (1000 # 1) "USD" None None card) empty_db)
     = (PaymentJson (Payment.mk "id-1" (1000 # 1) "USD" SUCCEEDED 0 None None
                                ("111" ++ nl)), 201).
Proof. repeat split; reflexivity. Qed.

End Claims.

(** ** Further facts about the patterns and the handlers *)

Module MoreFacts.
Import Py Spec Terms PyFacts IntFacts App AppFacts.

Local Open Scope Z_scope.

(** *** The CVV pattern *)

Lemma rep_req_then_opt p n j : forall pos s k,
  rep_req (one_char p) n j pos s k
  = rep_req (one_char p) n 0 pos s
      (fun q t => rep_opt (one_char p) j q t k).
Proof.
  induction n as [|n IH]; intros pos s k; simpl; [reflexivity|].
  destruct s as [|c s]; simpl; [reflexivity|]. now rewrite IH.
Qed.

Lemma all_chars_app p a b :
  all_chars p (a ++ b) = all_chars p a && all_chars p b.
Proof.
  induction a as [|c a IH]; simpl; [reflexivity|].
  now rewrite IH, andb_assoc.
Qed.

Lemma append_assoc (a b c : string) : (a ++ b) ++ c = a ++ (b ++ c).
Proof. induction a; simpl; congruence. Qed.

Lemma append_empty (a : string) : a ++ EmptyString = a.
Proof. induction a; simpl; congruence. Qed.

Lemma re_match_cvv s :
  re_match cvv_re s = true <-> digits_then_end 3 s \/ digits_then_end 4 s.
Proof.
  unfold re_match, cvv_re. cbn [rmatch Nat.eqb andb].
  change (4 - 3)%nat with 1%nat.
  rewrite rep_req_then_opt, rep_req_exact. split.
  - intros (d & t & -> & Hlen & Hall & Hk). simpl in Hk.
    apply orb_true_iff in Hk as [Hk | Hk].
    + right. destruct t as [|c t]; [discriminate|]. simpl in Hk.
      apply andb_true_iff in Hk as [Hc Hk]. rewrite andb_true_r in Hk.
      apply at_end_iff in Hk.
      exists (d ++ String c EmptyString). rewrite length_append, all_chars_app.
      simpl. rewrite Hlen, Hall, Hc. repeat split.
      rewrite append_assoc. simpl.
      destruct Hk as [-> | ->]; [left | right]; reflexivity.
    + left. rewrite andb_true_r in Hk. apply at_end_iff in Hk.
      exists d. repeat split; try assumption.
      destruct Hk as [-> | ->]; [left | now right]. apply append_empty.
  - intros [(d & Hlen & Hall & Hs) | (d & Hlen & Hall & Hs)].
    + exists d. destruct Hs as [-> | ->].
      * exists EmptyString. rewrite append_empty. auto.
      * exists (String newline EmptyString). repeat split; auto.
    + destruct d as [|c1 [|c2 [|c3 [|c4 [|c5 d]]]]]; try discriminate.
      simpl in Hall.
      repeat (apply andb_true_iff in Hall; destruct Hall as [? Hall]).
      exists (String c1 (String c2 (String c3 EmptyString))).
      destruct Hs as [-> | ->].
      * exists (String c4 EmptyString). simpl.
        repeat match goal with H : _ = true |- _ => rewrite H end. auto.
      * exists (String c4 (String newline EmptyString)). simpl.
        repeat match goal with H : _ = true |- _ => rewrite H end. auto.
Qed.

(** *** The month pattern *)

Lemma in_range_1_9 b :
  in_range "1" "9" b = true ->
  In (String b EmptyString) ["1"; "2"; "3"; "4"; "5"; "6"; "7"; "8"; "9"].
Proof.
  destruct b as [[] [] [] [] [] [] [] []]; vm_compute; intros H;
    try discriminate; auto 10.
Qed.

Lemma in_range_0_2 b :
  in_range "0" "2" b = true -> In (String b EmptyString) ["0"; "1"; "2"].
Proof.
  destruct b as [[] [] [] [] [] [] [] []]; vm_compute; intros H;
    try discriminate; auto 10.
Qed.

Lemma re_match_month s :
  re_match expiry_month_re s = true <-> month_text s.
Proof.
  unfold re_match, expiry_month_re, month_text, then_end.
  cbn [rmatch Nat.eqb andb]. split.
  - destruct s as [|a [|b rest]]; cbn [one_char orb];
      rewrite ?andb_false_r; try discriminate.
    intros H. apply orb_true_iff in H as [H | H];
      apply andb_true_iff in H as [Ha H];
      apply andb_true_iff in H as [Hb H];
      rewrite andb_true_r in H; apply at_end_iff in H;
      apply Ascii.eqb_eq in Ha; subst a.
    + exists (String "0" (String b EmptyString)).
      split; [|destruct H as [-> | ->]; [left | right]; reflexivity].
      apply in_range_1_9 in Hb. simpl in Hb.
      repeat (destruct Hb as [[= <-] | Hb]; [simpl; auto 20|]).
      contradiction.
    + exists (String "1" (String b EmptyString)).
      split; [|destruct H as [-> | ->]; [left | right]; reflexivity].
      apply in_range_0_2 in Hb. simpl in Hb.
      repeat (destruct Hb as [[= <-] | Hb]; [simpl; auto 20|]).
      contradiction.
  - intros (m & Hin & Hs). simpl in Hin.
    repeat (destruct Hin as [<- | Hin];
            [destruct Hs as [-> | ->]; reflexivity|]).
    contradiction.
Qed.

(** *** The API key *)

Lemma validate_api_key_ok env k :
  validate_api_key env k = Ok tt
  <-> k = Some (getenv_API_KEY env "sk_test_123").
Proof.
  unfold validate_api_key, same_key. destruct k as [k|]; simpl.
  - destruct (String.eqb k _) eqn:E; simpl.
    + apply String.eqb_eq in E. subst k. tauto.
    + apply String.eqb_neq in E. split; [discriminate|].
      intros [= H]. contradiction.
  - split; discriminate.
Qed.

Lemma validate_api_key_bad env k :
  k <> Some (getenv_API_KEY env "sk_test_123") ->
  validate_api_key env k = Raise (ValueError "Invalid API key").
Proof.
  intros H. destruct (validate_api_key_cases env k) as [E | E]; [|exact E].
  apply validate_api_key_ok in E. contradiction.
Qed.

(** *** Reading one payment *)

Lemma get_payment_run env k i rows :
  validate_api_key env k = Ok tt ->
  get_payment env k i (clean rows) =
  match by_id i rows with
  | None => ((Detail "Payment not found", 404), clean rows)
  | Some payment =>
      if loads payment
      then ((PaymentJson payment, 200), clean rows)
      else ((Detail "Internal server error", 500), clean rows)
  end.
Proof.
  intros Hk.
  unfold get_payment, except, get_payment_try, bind, lift, session_get, ret.
  rewrite Hk, session_rows_clean.
  destruct (by_id i rows) as [row|]; [|reflexivity].
  unfold load. destruct (loads row); reflexivity.
Qed.

Lemma get_payment_stored env k db p :
  consistent db -> validate_api_key env k = Ok tt -> In p (table db) ->
  loads p = true ->
  get_payment env k (Payment.id p) db = ((PaymentJson p, 200), db).
Proof.
  intros Hc Hk Hin Hl. pose proof Hc as (_ & _ & _ & Hnd).
  rewrite (consistent_clean db Hc) at 1 2.
  rewrite get_payment_run by assumption.
  now rewrite (find_by_id _ _ Hnd Hin), Hl.
Qed.

(** *** Lists *)

(** *** The sample databases *)

Lemma reachable_db1 : reachable db1.
Proof.
  exact (reachable_serve env0 (POST_payments key0 request0) _ reachable_empty).
Defined.

Lemma reachable_db3 : reachable db3.
Proof.
  exact (reachable_serve (env_with_id "id-3") (POST_payments key0 request0) _
           (reachable_serve (env_with_id "id-2") (POST_payments key0 request0) _
              reachable_db1)).
Defined.


Lemma substring_all : forall s m,
  (String.length s <= m)%nat -> substring 0 m s = s.
Proof.
  induction s as [|c s IH]; intros m H; destruct m as [|m]; simpl in *;
    try reflexivity; try lia.
  rewrite IH; [reflexivity | lia].
Qed.

(** *** The year test of line 63 *)

Lemma year_test env s :
  negb (re_match expiry_year_re s)
  || match Py.int s with
     | Some year => year <? now_year env
     | None => true
     end = false
  <-> year_text env s.
Proof.
  unfold year_text. split.
  - intros H. apply orb_false_iff in H as [Hre Hint].
    apply negb_false_iff, re_match_digits in Hre. split; [exact Hre|].
    destruct (Py.int s) as [year|]; [|discriminate].
    exists year. split; [reflexivity|]. apply Z.ltb_ge. exact Hint.
  - intros (Hre & year & Hint & Hle).
    apply re_match_digits in Hre. unfold expiry_year_re. rewrite Hre, Hint.
    simpl. now apply Z.ltb_ge.
Qed.

Lemma not_true_iff (b : bool) (P : Prop) :
  (b = true <-> P) -> b = false -> ~ P.
Proof. intros H E HP. apply H in HP. congruence. Qed.

Lemma not_false_iff (b : bool) (P : Prop) :
  (b = false <-> P) -> b = true -> ~ P.
Proof. intros H E HP. apply H in HP. congruence. Qed.

(** *** The details of a rejected request *)

Lemma PaymentRequest_validate_details env req e :
  PaymentRequest_validate env req = Raise e ->
  exists detail,
    e = ValueError detail
    /\ In detail ["Amount must be greater than 0"; number_detail;
                  month_detail; year_detail; cvv_detail].
Proof.
  unfold PaymentRequest_validate.
  destruct (Qle_bool _ _).
  - intros [= <-]. eexists. split; [reflexivity | simpl; auto].
  - rewrite CardDetails_validate_first_failure.
    repeat match goal with
           | |- context [if ?b then _ else _] => destruct b
           end; intros [= <-]; eexists; (split; [reflexivity|]);
      simpl; auto 10.
Qed.

(** *** One request, one row *)

Lemma update_status_set i s rows p :
  In p rows -> Payment.id p = i ->
  In (Payment.set_status s p) (update_status rows (i, s)).
Proof.
  intros Hin Hid. unfold update_status. apply in_map_iff. exists p.
  split; [|exact Hin]. simpl. subst i. now rewrite String.eqb_refl.
Qed.

(** The table after a request: the table before, with at most one row
    added at its end or the rows of one id set to REFUNDED. *)
Lemma serve_table env c db :
  consistent db ->
  table (snd (serve env c db)) = table db
  \/ (exists p, table (snd (serve env c db)) = (table db ++ [p])%list)
  \/ (exists p, by_id (Payment.id p) (table db) = Some p
                /\ Payment.status p = SUCCEEDED
                /\ table (snd (serve env c db))
                   = update_status (table db) (Payment.id p, REFUNDED)).
Proof.
  intros Hc. rewrite (consistent_clean db Hc). simpl table.
  destruct c as [k req | k i | k i a | k l o]; simpl.
  - destruct (create_payment_db env k req (table db)) as [-> | (_ & _ & ->)];
      [now left|].
    right. left. simpl. eauto.
  - rewrite get_payment_db. now left.
  - destruct (refund_payment_db env k i a (table db))
      as [-> | (p & Hfind & Hid & _ & Hst & ->)]; [now left|].
    right. right. exists p. rewrite Hid. auto.
  - rewrite list_payments_db. now left.
Qed.

End MoreFacts.

(** ** Further properties of the code *)

Module Extras.
Import Py Spec Terms PyFacts IntFacts App AppFacts MoreFacts.

Local Open Scope Z_scope.

(** X1. A request whose X-API-Key header is absent, or is not the
    configured key (the environment variable API_KEY, "sk_test_123" when
    it is unset), is answered 400 "Invalid API key" by every endpoint,
    whatever else it carries, and the database is left untouched. *)
Theorem request_without_the_key_is_rejected env c db :
  call_key c <> Some (getenv_API_KEY env "sk_test_123") ->
  serve env c db = ((Detail "Invalid API key", 400), db).
Proof.
  intros H. apply validate_api_key_bad in H.
  destruct c as [k req | k i | k i a | k l o]; simpl in *.
  - apply create_payment_invalid. now left.
  - unfold get_payment, except, get_payment_try, bind, lift. now rewrite H.
  - now apply refund_payment_invalid.
  - unfold list_payments, except, list_payments_try, bind, lift. now rewrite H.
Qed.

Lemma request_without_the_key_is_rejected_witness :
  serve env0 (POST_refund None "id-1" None) db1
  = ((Detail "Invalid API key", 400), db1)
  /\ serve env0 (GET_payments (Some "sk_live_1") (Some "x") None) db1
     = ((Detail "Invalid API key", 400), db1).
Proof.
  split.
  - apply (request_without_the_key_is_rejected env0
             (POST_refund None "id-1" None) db1).
    discriminate.
  - apply (request_without_the_key_is_rejected env0
             (GET_payments (Some "sk_live_1") (Some "x") None) db1).
    discriminate.
Defined.

(** X2. The two GET endpoints never change the database, whatever state
    the session is in.  On a reachable database, a request changes the
    database only if it is a create-payment whose row was committed,
    answered 201 or, when the currency of the request is none of USD,
    UGX, KES, answered 500, or a refund answered 200: an answer 400 or
    404 leaves everything as it was. *)
Theorem database_changes_only_on_commit :
  (forall env k i db, snd (get_payment env k i db) = db)
  /\ (forall env k l o db, snd (list_payments env k l o db) = db)
  /\ (forall env c db,
         reachable db ->
         snd (serve env c db) <> db ->
         (exists k req,
             c = POST_payments k req
             /\ table (snd (serve env c db))
                = (table db ++ [new_payment env req SUCCEEDED])%list
             /\ (snd (fst (serve env c db)) = 201
                 \/ (snd (fst (serve env c db)) = 500
                     /\ Currency_member (PaymentRequest.currency req) = false)))
         \/ (exists k i a, c = POST_refund k i a
                           /\ snd (fst (serve env c db)) = 200)).
Proof.
  split; [exact get_payment_db|]. split; [exact list_payments_db|].
  intros env c db Hr Hne.
  apply reachable_consistent, consistent_clean in Hr.
  destruct c as [k req | k i | k i a | k l o]; simpl in *.
  - left. exists k, req. split; [reflexivity|]. revert Hne.
    destruct (validate_api_key_cases env k) as [Hk | Hk].
    + destruct (PaymentRequest_validate_cases env req) as [Hv | [m Hv]].
      * rewrite Hr. rewrite create_payment_run by assumption.
        destruct (startswith _ _); [|simpl; congruence]. cbv zeta.
        destruct (storable _ _ _); [|simpl; congruence].
        unfold loads. simpl Payment.currency.
        destruct (Currency_member _); simpl; auto.
      * rewrite (create_payment_invalid env k req db m) by (now right).
        simpl. congruence.
    + rewrite (create_payment_invalid env k req db _ (or_introl Hk)).
      simpl. congruence.
  - now rewrite get_payment_db in Hne.
  - right. exists k, i, a. split; [reflexivity|]. revert Hne.
    destruct (validate_api_key_cases env k) as [Hk | Hk].
    + rewrite Hr. rewrite refund_payment_run by assumption.
      destruct (by_id _ _) as [p|]; [|simpl; congruence].
      destruct (negb (loads p)); [simpl; congruence|].
      destruct (negb _); [simpl; congruence|].
      destruct (truthy a && _); simpl; congruence.
    + rewrite refund_payment_invalid by assumption. simpl. congruence.
  - now rewrite list_payments_db in Hne.
Qed.

Lemma database_changes_only_on_commit_witness :
  snd (fst (serve env0 (POST_refund key0 "id-1" None) db1)) = 200.
Proof.
  destruct database_changes_only_on_commit as (_ & _ & H).
  destruct (H env0 (POST_refund key0 "id-1" None) db1 reachable_db1)
    as [(k & req & E & _) | (k & i & a & _ & Hcode)].
  - vm_compute. discriminate.
  - discriminate E.
  - exact Hcode.
Defined.

(** X3. For an id no stored payment has, get_payment and refund_payment
    both answer 404 "Payment not found", whatever refund amount is given,
    and the database is left as it was. *)
Theorem unknown_id_is_not_found env k i a db :
  reachable db ->
  validate_api_key env k = Ok tt ->
  by_id i (table db) = None ->
  get_payment env k i db = ((Detail "Payment not found", 404), db)
  /\ refund_payment env k i a db = ((Detail "Payment not found", 404), db).
Proof.
  intros Hr Hk Hnone.
  apply reachable_consistent, consistent_clean in Hr.
  rewrite Hr at 1 2 3 4.
  rewrite get_payment_run, refund_payment_run by assumption.
  now rewrite Hnone.
Qed.

Lemma unknown_id_is_not_found_witness :
  get_payment env0 key0 "nonexistent-id" db1
  = ((Detail "Payment not found", 404), db1)
  /\ refund_payment env0 key0 "nonexistent-id" (Some (1 # 1)%Q) db1
     = ((Detail "Payment not found", 404), db1).
Proof.
  apply (unknown_id_is_not_found env0 key0 "nonexistent-id" (Some (1 # 1)%Q)
           db1 reachable_db1); reflexivity.
Defined.

(** X4. After a create-payment answered 201, get_payment with the id of
    the answer returns that very record with 200, and every payment
    stored before the call whose currency is one of USD, UGX, KES is
    still returned as it was. *)
Theorem created_payment_is_retrievable env k req db p :
  reachable db ->
  fst (create_payment env k req db) = (PaymentJson p, 201) ->
  let db' := snd (create_payment env k req db) in
  forall env' k',
    validate_api_key env' k' = Ok tt ->
    get_payment env' k' (Payment.id p) db' = ((PaymentJson p, 200), db')
    /\ forall q, In q (table db) ->
                 Currency_member (Payment.currency q) = true ->
                 get_payment env' k' (Payment.id q) db' = ((PaymentJson q, 200), db').
Proof.
  intros Hr H db' env' k' Hk'.
  apply reachable_consistent in Hr.
  assert (Hc' : consistent db') by now apply consistent_create_payment.
  apply create_payment_201 in H as (_ & _ & _ & _ & Hl & [= ->] & Hdb');
    [|assumption].
  assert (Htable : table db' = (table db ++ [new_payment env req SUCCEEDED])%list)
    by (subst db'; now rewrite Hdb').
  split.
  - apply get_payment_stored; try assumption.
    rewrite Htable. apply in_or_app. right. now left.
  - intros q Hq Hlq. apply get_payment_stored; try assumption.
    rewrite Htable. apply in_or_app. now left.
Qed.

Lemma created_payment_is_retrievable_witness :
  get_payment env0 key0 "id-1" db1
  = ((PaymentJson (payment0 "id-1" SUCCEEDED), 200), db1).
Proof.
  apply (created_payment_is_retrievable env0 key0 request0 empty_db
           (payment0 "id-1" SUCCEEDED) reachable_empty eq_refl env0 key0 eq_refl).
Defined.

(** X5. After a refund answered 200, get_payment with the same id returns
    the record the refund answered, with status REFUNDED. *)
Theorem refunded_payment_is_retrievable env k i a db body :
  reachable db ->
  fst (refund_payment env k i a db) = (body, 200) ->
  let db' := snd (refund_payment env k i a db) in
  forall env' k',
    validate_api_key env' k' = Ok tt ->
    get_payment env' k' i db' = ((body, 200), db')
    /\ exists p, body = PaymentJson p /\ Payment.status p = REFUNDED.
Proof.
  intros Hr H db' env' k' Hk'.
  apply reachable_consistent in Hr.
  apply refund_payment_200 in H as (p & Hfind & Hl & _ & -> & Hdb');
    [|assumption].
  subst db'. rewrite Hdb'. rewrite get_payment_run by assumption.
  rewrite (find_update_status _ REFUNDED _ _ Hfind), loads_set_status, Hl.
  split; [reflexivity | eauto].
Qed.

Lemma refunded_payment_is_retrievable_witness :
  fst (get_payment env0 key0 "id-1"
         (snd (refund_payment env0 key0 "id-1" None db1)))
  = (PaymentJson (payment0 "id-1" REFUNDED), 200).
Proof.
  destruct (refunded_payment_is_retrievable env0 key0 "id-1" None db1
              (PaymentJson (payment0 "id-1" REFUNDED)) reachable_db1 eq_refl
              env0 key0 eq_refl) as [H _].
  now rewrite H.
Defined.

(** X6. The month test passes exactly the twelve texts "01" to "12",
    each also when followed by one newline. *)
Theorem expiry_month_pattern s :
  re_match expiry_month_re s = true <-> month_text s.
Proof. apply re_match_month. Qed.

(** X7. The CVV test passes exactly the texts of 3 or of 4 decimal
    digits, each also when followed by one newline. *)
Theorem cvv_pattern s :
  re_match cvv_re s = true <-> cvv_text s.
Proof. apply re_match_cvv. Qed.

(** X8. CardDetails.validate returns without raising exactly when the
    card number is 16 digits, the month is one of "01" to "12", the year
    is 4 digits reading as a number not below the current year, and the
    CVV is 3 or 4 digits, each possibly followed by one newline.  The
    month is not compared with the current month, and the holder name is
    not looked at. *)
Theorem CardDetails_validate_accepts env cd :
  CardDetails_validate env cd = Ok tt <->
  digits_then_end 16 (CardDetails.card_number cd)
  /\ month_text (CardDetails.expiry_month cd)
  /\ year_text env (CardDetails.expiry_year cd)
  /\ cvv_text (CardDetails.cvv cd).
Proof.
  rewrite CardDetails_validate_first_failure.
  destruct (re_match card_number_re _) eqn:En; simpl.
  2:{ apply (not_true_iff _ _ (re_match_digits 16 _)) in En.
      split; [discriminate | tauto]. }
  destruct (re_match expiry_month_re _) eqn:Em; simpl.
  2:{ apply (not_true_iff _ _ (re_match_month _)) in Em.
      split; [discriminate | tauto]. }
  match goal with
  | |- context [if ?b then _ else _] => destruct b eqn:Ey
  end.
  { apply (not_false_iff _ _ (year_test env _)) in Ey.
    split; [discriminate | tauto]. }
  destruct (re_match cvv_re _) eqn:Ec; simpl.
  2:{ apply (not_true_iff _ _ (re_match_cvv _)) in Ec.
      split; [discriminate | unfold cvv_text; tauto]. }
  apply re_match_digits in En. apply re_match_month in Em.
  apply year_test in Ey. apply re_match_cvv in Ec.
  unfold cvv_text. tauto.
Qed.

(** X9. CardDetails.validate raises nothing but a ValueError carrying one
    of its four details, the detail of the first test that fails in the
    order number, month, year, CVV; the [int] of the year never raises
    an error of its own. *)
Theorem card_validation_failures env cd :
  let number := digits_then_end 16 (CardDetails.card_number cd) in
  let month := month_text (CardDetails.expiry_month cd) in
  let year := year_text env (CardDetails.expiry_year cd) in
  let cvv := cvv_text (CardDetails.cvv cd) in
  match CardDetails_validate env cd with
  | Ok _ => True
  | Raise (ValueError detail) =>
      (~ number /\ detail = number_detail)
      \/ (number /\ ~ month /\ detail = month_detail)
      \/ (number /\ month /\ ~ year /\ detail = year_detail)
      \/ (number /\ month /\ year /\ ~ cvv /\ detail = cvv_detail)
  | Raise (Exception _) => False
  end.
Proof.
  intros number month year cvv. subst number month year cvv.
  rewrite CardDetails_validate_first_failure.
  destruct (re_match card_number_re _) eqn:En; simpl.
  2:{ apply (not_true_iff _ _ (re_match_digits 16 _)) in En. now left. }
  apply re_match_digits in En.
  destruct (re_match expiry_month_re _) eqn:Em; simpl.
  2:{ apply (not_true_iff _ _ (re_match_month _)) in Em. right. now left. }
  apply re_match_month in Em.
  match goal with
  | |- context [if ?b then _ else _] => destruct b eqn:Ey
  end.
  { apply (not_false_iff _ _ (year_test env _)) in Ey. right. right. now left. }
  apply year_test in Ey.
  destruct (re_match cvv_re _) eqn:Ec; simpl; [exact I|].
  apply (not_true_iff _ _ (re_match_cvv _)) in Ec.
  right. right. right. unfold cvv_text. auto.
Qed.



(** X11. In every database the service can reach the session holds
    nothing pending, the ids of the payments are pairwise distinct, and
    every payment has a positive amount, the status SUCCEEDED or
    REFUNDED, never PENDING or FAILED, and a last_four of 4
    characters. *)
Theorem reachable_invariant db :
  reachable db ->
  session_new db = [] /\ session_dirty db = []
  /\ NoDup (map Payment.id (table db))
  /\ forall p, In p (table db) ->
               (0 < Payment.amount p)%Q
               /\ (Payment.status p = SUCCEEDED \/ Payment.status p = REFUNDED)
               /\ Payment.status p <> PENDING /\ Payment.status p <> FAILED
               /\ String.length (Payment.last_four p) = 4%nat.
Proof.
  intros Hr. apply reachable_consistent in Hr as (Hn & Hd & Hall & Hnd).
  repeat split; try assumption;
    rewrite Forall_forall in Hall; destruct (Hall p H) as (Ha & Hs & Hl);
    try assumption; destruct Hs as [-> | ->]; discriminate.
Qed.

Lemma reachable_invariant_witness :
  NoDup (map Payment.id (table db3)) /\ session_new db3 = [].
Proof.
  destruct (reachable_invariant db3 reachable_db3) as (Hn & _ & Hnd & _).
  split; assumption.
Defined.

(** X12. No request removes or reorders a payment: the ids of the table
    after a request are the ids before it, followed by at most one new
    id.  A stored payment is afterwards either in the table as it was,
    or in it with its status changed from SUCCEEDED to REFUNDED and
    every other field as before. *)
Theorem payments_are_kept env c db :
  reachable db ->
  (exists added,
      map Payment.id (table (snd (serve env c db)))
      = (map Payment.id (table db) ++ added)%list
      /\ (List.length added <= 1)%nat)
  /\ forall p, In p (table db) ->
               In p (table (snd (serve env c db)))
               \/ (Payment.status p = SUCCEEDED
                   /\ In (Payment.set_status REFUNDED p)
                         (table (snd (serve env c db)))).
Proof.
  intros Hr. apply reachable_consistent in Hr.
  pose proof Hr as (_ & _ & _ & Hnd).
  destruct (serve_table env c db Hr) as [-> | [[q ->] | (q & Hq & Hst & ->)]].
  - split; [exists []; rewrite app_nil_r; auto | auto].
  - split.
    + exists [Payment.id q]. rewrite map_app. auto.
    + intros p Hp. left. apply in_or_app. now left.
  - split.
    + exists []. rewrite update_status_ids, app_nil_r. auto.
    + intros p Hp.
      destruct (String.eqb (Payment.id p) (Payment.id q)) eqn:E.
      * apply String.eqb_eq in E.
        pose proof (find_by_id _ _ Hnd Hp) as Hfind. rewrite E in Hfind.
        assert (p = q) by congruence. subst q.
        right. split; [exact Hst|]. now apply update_status_set.
      * apply String.eqb_neq in E. left. now apply update_status_other.
Qed.

Lemma payments_are_kept_witness :
  In (payment0 "id-1" SUCCEEDED)
     (table (snd (serve (env_with_id "id-2") (POST_payments key0 request0) db1))).
Proof.
  destruct (payments_are_kept (env_with_id "id-2")
              (POST_payments key0 request0) db1 reachable_db1) as [_ H].
  destruct (H (payment0 "id-1" SUCCEEDED) (or_introl eq_refl)) as [Hin | [_ Hin]].
  - exact Hin.
  - exfalso. vm_compute in Hin. destruct Hin as [Hin | [Hin | []]]; discriminate.
Defined.

(** X13. get_last_four_digits returns the end of its argument, 4
    characters long, or the whole argument when it has fewer than 4
    characters. *)
Theorem last_four_of_any_text s :
  String.length (get_last_four_digits s) = Nat.min 4 (String.length s)
  /\ (exists front, s = front ++ get_last_four_digits s)
  /\ ((String.length s <= 4)%nat -> get_last_four_digits s = s).
Proof.
  unfold get_last_four_digits.
  assert (Hshort : (String.length s <= 4)%nat -> last_chars 4 s = s).
  { intros H. unfold last_chars.
    replace (String.length s - 4)%nat with 0%nat by lia.
    now apply substring_all. }
  destruct (Nat.le_gt_cases 4 (String.length s)) as [H | H].
  - destruct (last_chars_suffix 4 s H) as [Hlen Hfront].
    split; [rewrite Hlen; lia|]. split; [exact Hfront | exact Hshort].
  - rewrite Hshort by lia.
    split; [lia|]. split; [now exists EmptyString | reflexivity].
Qed.

Lemma last_four_of_any_text_witness : get_last_four_digits "12" = "12".
Proof.
  destruct (last_four_of_any_text "12") as (_ & _ & H).
  apply H. simpl. lia.
Defined.

(** X14. create_payment answers "Card declined" only to a request that
    carries the right key and passes validation, and then exactly when
    its card number does not start with 4111: no rejected key and no
    validation failure is reported under that detail. *)
Theorem card_declined_means_valid env k req db :
  reachable db ->
  (fst (create_payment env k req db) = (Detail "Card declined", 400)
   <-> validate_api_key env k = Ok tt
       /\ PaymentRequest_validate env req = Ok tt
       /\ startswith (CardDetails.card_number (PaymentRequest.card_details req))
                     "4111" = false).
Proof.
  intros Hr. apply reachable_consistent, consistent_clean in Hr. rewrite Hr.
  destruct (validate_api_key_cases env k) as [Hk | Hk].
  - destruct (PaymentRequest_validate env req) as [[]|e] eqn:Hv.
    + rewrite create_payment_run by assumption.
      destruct (startswith _ _); cbv zeta.
      * destruct (storable _ _ _); [destruct (loads _)|]; simpl;
          (split; [discriminate | intros (_ & _ & ?); discriminate]).
      * simpl. tauto.
    + destruct (PaymentRequest_validate_details env req e Hv)
        as (detail & -> & Hin).
      rewrite (create_payment_invalid env k req _ detail) by (now right).
      simpl. split; [|intros (_ & ? & _); discriminate].
      intros [= ->]. simpl in Hin.
      repeat (destruct Hin as [Hin | Hin]; [discriminate|]). contradiction.
  - rewrite (create_payment_invalid env k req _ _ (or_introl Hk)).
    simpl. split; [discriminate|]. rewrite Hk. intros (? & _). discriminate.
Qed.

Lemma card_declined_means_valid_witness :
  validate_api_key env0 key0 = Ok tt
  /\ startswith "5555555555554444" "4111" = false.
Proof.
  destruct (card_declined_means_valid env0 key0
              (PaymentRequest.mk (1000 # 1) "USD" None None
                 (CardDetails.mk "5555555555554444" "12" "2027" "123" "T"))
              db1 reachable_db1) as [H _].
  destruct (H eq_refl) as (Hk & _ & Hs). split; assumption.
Defined.

(** X15. A refund is answered 200 exactly when the key is right, a
    payment with the given id is stored, its currency is one of USD,
    UGX, KES, its status is SUCCEEDED, and the amount is absent or at
    most the stored amount.  It is answered 500 exactly when the key is
    right and the stored payment of that id has another currency; in
    every other case the answer is a 400 or a 404. *)
Theorem refund_succeeds_exactly_when env k i a db :
  reachable db ->
  (snd (fst (refund_payment env k i a db)) = 200
   <-> validate_api_key env k = Ok tt
       /\ exists p, by_id i (table db) = Some p
                    /\ Currency_member (Payment.currency p) = true
                    /\ Payment.status p = SUCCEEDED
                    /\ (a = None
                        \/ exists q, a = Some q /\ (q <= Payment.amount p)%Q))
  /\ (snd (fst (refund_payment env k i a db)) = 500
      <-> validate_api_key env k = Ok tt
          /\ exists p, by_id i (table db) = Some p
                       /\ Currency_member (Payment.currency p) = false)
  /\ In (snd (fst (refund_payment env k i a db))) [200; 400; 404; 500].
Proof.
  intros Hr. apply reachable_consistent in Hr.
  pose proof Hr as (_ & _ & Hall & _). rewrite Forall_forall in Hall.
  rewrite (consistent_clean db Hr). simpl table.
  destruct (validate_api_key_cases env k) as [Hk | Hk].
  2:{ rewrite refund_payment_invalid by assumption. simpl.
      split; [|split]; [| |auto];
        (split; [discriminate | intros (Hk' & _); congruence]). }
  rewrite refund_payment_run by assumption.
  destruct (by_id i (table db)) as [p|] eqn:Hfind.
  2:{ simpl. split; [|split]; [| |auto];
        (split; [discriminate | intros (_ & p' & Hp' & _); discriminate]). }
  apply find_id_eq in Hfind as [Hin _].
  destruct (Hall p Hin) as (Hpos & _).
  unfold loads. destruct (Currency_member (Payment.currency p)) eqn:Hl.
  2:{ simpl. split; [|split]; [| |auto 10].
      - split; [discriminate|].
        intros (_ & p' & [= <-] & Hl' & _). congruence.
      - split; [eauto | reflexivity]. }
  assert (H500 : forall code : Z, code <> 500 ->
            code = 500 <->
            validate_api_key env k = Ok tt
            /\ exists p', Some p = Some p'
                          /\ Currency_member (Payment.currency p') = false).
  { intros code Hne. split; [contradiction|].
    intros (_ & p' & [= <-] & Hl'). congruence. }
  destruct (PaymentStatus_eqb (Payment.status p) SUCCEEDED) eqn:Hst.
  2:{ simpl. split; [|split]; [|apply H500; discriminate|auto 10].
      split; [discriminate|].
      intros (_ & p' & [= <-] & _ & Hs & _). rewrite Hs in Hst. discriminate. }
  assert (Hs : Payment.status p = SUCCEEDED)
    by (destruct (Payment.status p); try discriminate; reflexivity).
  destruct a as [q|].
  2:{ simpl. split; [|split]; [|apply H500; discriminate|auto 10].
      split; [|reflexivity]. intros _. eauto 10. }
  simpl negb. cbv iota. unfold exceeds, truthy.
  destruct (Qle_bool q (Payment.amount p)) eqn:Hle.
  - rewrite andb_false_r. simpl.
    split; [|split]; [|apply H500; discriminate|auto 10].
    split; [|reflexivity]. intros _. apply Qle_bool_iff in Hle. eauto 10.
  - assert (Hq : ~ (q <= Payment.amount p)%Q)
      by (intros H; apply Qle_bool_iff in H; congruence).
    destruct (Qeq_bool q 0%Q) eqn:Hz.
    + exfalso. apply Hq. apply Qeq_bool_iff in Hz. rewrite Hz.
      now apply Qlt_le_weak.
    + simpl. split; [|split]; [|apply H500; discriminate|auto 10].
      split; [discriminate|].
      intros (_ & p' & [= <-] & _ & _ & [H | (q' & [= <-] & H)]);
        [discriminate | contradiction].
Qed.

Lemma refund_succeeds_exactly_when_witness :
  snd (fst (refund_payment env0 key0 "id-1" (Some (500 # 1)%Q) db1)) = 200.
Proof.
  destruct (refund_succeeds_exactly_when env0 key0 "id-1" (Some (500 # 1)%Q)
              db1 reachable_db1) as [[_ H] _].
  apply H. split; [reflexivity|].
  exists (payment0 "id-1" SUCCEEDED). repeat split.
  right. exists (500 # 1)%Q. split; [reflexivity|]. vm_compute. discriminate.
Defined.

End Extras.
